(** * fg21sim.configs.manager: the configuration manager

    A shallow embedding of [fg21sim/configs/manager.py] (class
    [ConfigManager]) together with the Python built-ins and [posixpath]
    functions it calls.

    Conventions of the embedding:
    - Python [str] is [string]; a one-character [str] (the [sep] of [getn])
      is an [ascii];
    - a [dict] (and configobj's [Section], a [dict] subclass) is an
      association list read with [dict_get] and written with [dict_set];
    - a Python [float] is an IEEE 754 binary64 value, Rocq's primitive
      [float]: both round every operation to nearest, ties to even; a Python
      [int] is a [Z];
    - methods are computations in a state-and-exception monad [M]: the state
      persists when an exception is raised, as attribute writes do in Python. *)

From Stdlib Require Import String Ascii List Bool Arith ZArith Lia.
From Stdlib Require Import QArith Qround Floats.
Import ListNotations.
Open Scope string_scope.

#[local] Set Warnings "-register-all".
#[local] Set Warnings "-inexact-float".
Close Scope Q_scope.

(** ** Python exceptions and results *)

Module Py.

(** The exception classes that occur in the module, in the libraries it calls
    and in its specification.  [KeyNotFoundError] and [InvalidConfigError]
    are named by the specification only: no code path constructs them. *)
Inductive exn : Type :=
| ConfigError (msg : string)
| ConfigObjError (msg : string)
| IOError
| TypeError
| ZeroDivisionError
| ValueError
| OverflowError
| AttributeError
| KeyNotFoundError
| InvalidConfigError.

Inductive result (A : Type) : Type :=
| Ok (a : A)
| Raise (e : exn).
Arguments Ok {A} a.
Arguments Raise {A} e.

Definition is_ConfigError (e : exn) : bool :=
  match e with ConfigError _ => true | _ => false end.

(** *** [str] methods *)

(** [s.startswith(p)] *)
Fixpoint startswith (s p : string) {struct p} : bool :=
  match p with
  | EmptyString => true
  | String a p' =>
      match s with
      | EmptyString => false
      | String b s' => Ascii.eqb b a && startswith s' p'
      end
  end.

(** [s.split(sep)] for a one-character separator: never returns the empty
    list, and [''.split(sep) == ['']]. *)
Fixpoint split (sep : ascii) (s : string) : list string :=
  match s with
  | EmptyString => [EmptyString]
  | String c s' =>
      if Ascii.eqb c sep then EmptyString :: split sep s'
      else match split sep s' with
           | [] => [String c EmptyString]
           | w :: ws => String c w :: ws
           end
  end.

(** [sep.join(l)] *)
Definition join (sep : string) (l : list string) : string := String.concat sep l.

(** [c in s] for a one-character [c] *)
Fixpoint contains (c : ascii) (s : string) : bool :=
  match s with
  | EmptyString => false
  | String d s' => Ascii.eqb d c || contains c s'
  end.

(** [s.rstrip(c)] for a one-character [c] *)
Fixpoint rstrip (c : ascii) (s : string) : string :=
  match s with
  | EmptyString => EmptyString
  | String d s' =>
      match rstrip c s' with
      | EmptyString => if Ascii.eqb d c then EmptyString else String d EmptyString
      | r => String d r
      end
  end.

(** [s.endswith(c)] for a one-character [c] *)
Fixpoint endswith (s : string) (c : ascii) : bool :=
  match s with
  | EmptyString => false
  | String d EmptyString => Ascii.eqb d c
  | String _ s' => endswith s' c
  end.

(** [c * n] *)
Fixpoint replicate (c : ascii) (n : nat) : string :=
  match n with
  | O => EmptyString
  | S n' => String c (replicate c n')
  end.

(** [x or y] on strings: the empty string is falsy. *)
Definition str_or (x y : string) : string :=
  match x with EmptyString => y | _ => x end.

(** *** Values *)

(** What a configuration entry holds once parsed or validated: [None], a
    [bool], a number (a [float]), a [str], or a list of these. *)
Inductive leaf : Type :=
| LNone
| LBool (b : bool)
| LNum (f : float)
| LStr (s : string)
| LList (xs : list leaf).

(** A value stored in (or read from) a configuration: an entry or a nested
    section, a [dict] kept in insertion order. *)
Inductive value : Type :=
| VLeaf (x : leaf)
| VSection (items : list (string * value)).

Definition dict : Type := list (string * value).

Definition None_ : value := VLeaf LNone.

(** [d.get(k)] seen as an option: [None] when the key is absent. *)
Fixpoint dict_get (d : dict) (k : string) : option value :=
  match d with
  | [] => None
  | (k', v) :: d' => if String.eqb k' k then Some v else dict_get d' k
  end.

(** [d[k] = v]: overwrite in place, or append a new key. *)
Fixpoint dict_set (d : dict) (k : string) (v : value) : dict :=
  match d with
  | [] => [(k, v)]
  | (k', v') :: d' =>
      if String.eqb k' k then (k, v) :: d' else (k', v') :: dict_set d' k v
  end.

Definition keys (d : dict) : list string := map fst d.

(** [dict.get(obj, k)], the unbound method applied to an arbitrary object:
    a [TypeError] unless [obj] is a [dict]; [None] for an absent key. *)
Definition dict_get_unbound (obj : value) (k : string) : result value :=
  match obj with
  | VSection d =>
      match dict_get d k with
      | Some v => Ok v
      | None => Ok None_
      end
  | VLeaf _ => Raise TypeError
  end.

(** [functools.reduce(f, xs, init)] for an [f] that may raise. *)
Fixpoint reduce {A B : Type} (f : A -> B -> result A) (xs : list B) (init : A)
  : result A :=
  match xs with
  | [] => Ok init
  | x :: xs' =>
      match f init x with
      | Ok a => reduce f xs' a
      | Raise e => Raise e
      end
  end.

(** *** Numbers *)

(** The operand of an arithmetic operator: a [float], and [bool] as 0 and
    1; anything else makes the operator raise [TypeError].  The values of a
    config hold no [int]: what Python gives as an [int] (from two [bool]) is
    given as the [float] equal to it. *)
Definition as_number (v : value) : option float :=
  match v with
  | VLeaf (LNum f) => Some f
  | VLeaf (LBool b) => Some (if b then 1%float else 0%float)
  | _ => None
  end.

Definition number (f : float) : value := VLeaf (LNum f).

Definition arith (op : float -> float -> result float) (x y : value)
  : result float :=
  match as_number x, as_number y with
  | Some a, Some b => op a b
  | _, _ => Raise TypeError
  end.

(** [x - y], [x + y] on floats: rounded, never raising. *)
Definition sub : value -> value -> result float :=
  arith (fun a b => Ok (a - b)%float).
Definition add : value -> value -> result float :=
  arith (fun a b => Ok (a + b)%float).

(** [x / y], true division: [ZeroDivisionError] for a divisor equal to zero
    (of either sign). *)
Definition truediv : value -> value -> result float :=
  arith (fun a b =>
           if PrimFloat.eqb b 0%float then Raise ZeroDivisionError
           else Ok (a / b)%float).

(** From [2**1024 - 2**970] on, the float nearest to an [int] is infinite. *)
Definition overflow_bound : Z := (2 ^ 1024 - 2 ^ 970)%Z.

(** [float(n)] of a Python [int], the conversion an arithmetic operator
    applies to an [int] operand beside a [float]: the nearest float, ties to
    even, or [OverflowError]. *)
Definition float_of_int (n : Z) : result float :=
  if (Z.abs n <? overflow_bound)%Z
  then Ok (SF2Prim (binary_normalize prec emax n 0 false))
  else Raise OverflowError.

Definition arith_int (op : float -> float -> result float) (x : value) (n : Z)
  : result float :=
  match as_number x with
  | None => Raise TypeError
  | Some a =>
      match float_of_int n with
      | Ok b => op a b
      | Raise e => Raise e
      end
  end.

(** [x + n], [x * n] for a number [x] and an [int] [n] *)
Definition add_int : value -> Z -> result float :=
  arith_int (fun a b => Ok (a + b)%float).
Definition mul_int : value -> Z -> result float :=
  arith_int (fun a b => Ok (a * b)%float).

(** [int(x)] of a [float]: truncation toward zero; [ValueError] for a nan,
    [OverflowError] for an infinity.  A finite float is [m * 2**e], with the
    sign [s]. *)
Definition int (f : float) : result Z :=
  match Prim2SF f with
  | S754_nan => Raise ValueError
  | S754_infinity _ => Raise OverflowError
  | S754_zero _ => Ok 0%Z
  | S754_finite s m e =>
      Ok (cond_Zopp s
            match e with
            | Zneg p => Z.shiftr (Zpos m) (Zpos p)
            | _ => Z.shiftl (Zpos m) e
            end)
  end.

(** [range(n)] *)
Definition range (n : Z) : list Z := map Z.of_nat (seq 0 (Z.to_nat n)).

(** [[f(x) for x in xs]] for an [f] that may raise. *)
Fixpoint comprehension {A B : Type} (f : A -> result B) (xs : list A)
  : result (list B) :=
  match xs with
  | [] => Ok []
  | x :: xs' =>
      match f x with
      | Raise e => Raise e
      | Ok y =>
          match comprehension f xs' with
          | Raise e => Raise e
          | Ok ys => Ok (y :: ys)
          end
      end
  end.

(** *** Characters that cannot be written inside a string literal *)

Definition dquote : string := String (ascii_of_nat 34) EmptyString.
Definition newline : ascii := ascii_of_nat 10.

End Py.

(** ** [posixpath]: the [os.path] functions of a POSIX system *)

Module PosixPath.
Import Py.

(** What [os.path] reads from the process environment. *)
Record Environ : Type := {
  getcwd : string;                        (* os.getcwd() *)
  environ_HOME : option string;           (* os.environ.get('HOME') *)
  getpwuid_dir : option string;           (* pwd.getpwuid(os.getuid()).pw_dir *)
  getpwnam_dir : string -> option string  (* pwd.getpwnam(name).pw_dir *)
}.

Definition sep : ascii := "/"%char.

(** [isabs(s)]: [s.startswith('/')] *)
Definition isabs (s : string) : bool := startswith s "/".

(** [join(a, b)] *)
Definition join (a b : string) : string :=
  if startswith b "/" then b
  else match a with
       | EmptyString => b
       | _ => if endswith a sep then a ++ b else a ++ "/" ++ b
       end.

(** [p[:p.rfind('/') + 1]]: everything up to and including the last slash. *)
Fixpoint upto_last_sep (p : string) : string :=
  match p with
  | EmptyString => EmptyString
  | String c p' =>
      if contains sep p then String c (upto_last_sep p') else EmptyString
  end.

(** [dirname(p)] *)
Definition dirname (p : string) : string :=
  let head := upto_last_sep p in
  if String.eqb head (replicate sep (String.length head)) then head
  else rstrip sep head.

(** [(s[:i], s[i:])] for [i = s.find('/')], or [(s, '')] when there is no
    slash. *)
Fixpoint break_at_sep (s : string) : string * string :=
  match s with
  | EmptyString => (EmptyString, EmptyString)
  | String c s' =>
      if Ascii.eqb c sep then (EmptyString, s)
      else let (a, b) := break_at_sep s' in (String c a, b)
  end.

(** [expanduser(path)] *)
Definition expanduser (env : Environ) (path : string) : string :=
  match path with
  | String "~"%char tl =>
      let (name, rest) := break_at_sep tl in
      let userhome :=
        match name with
        | EmptyString =>
            match environ_HOME env with
            | Some h => Some h
            | None => getpwuid_dir env
            end
        | _ => getpwnam_dir env name
        end in
      match userhome with
      | None => path
      | Some h => str_or (rstrip sep h ++ rest) "/"
      end
  | _ => path
  end.

(** One iteration of the loop of [normpath] over the components. *)
Definition normpath_step (initial_slashes : nat) (new_comps : list string)
  (comp : string) : list string :=
  if String.eqb comp "" || String.eqb comp "." then new_comps
  else if negb (String.eqb comp "..")
          || (Nat.eqb initial_slashes 0
              && match new_comps with [] => true | _ => false end)
          || String.eqb (last new_comps "") ".."
       then new_comps ++ [comp]
       else removelast new_comps.

(** [normpath(path)] *)
Definition normpath (path : string) : string :=
  match path with
  | EmptyString => "."
  | _ =>
      let initial_slashes :=
        if startswith path "/" then
          if startswith path "//" && negb (startswith path "///") then 2
          else 1
        else 0 in
      let comps := fold_left (normpath_step initial_slashes) (split sep path) [] in
      str_or (replicate sep initial_slashes ++ Py.join "/" comps) "."
  end.

(** [abspath(path)] *)
Definition abspath (env : Environ) (path : string) : string :=
  normpath (if isabs path then path else join (getcwd env) path).

End PosixPath.


(** ** The [configobj] package, as far as the manager relies on it *)

Module configobj.
Import Py.

(** The first argument of [ConfigObj(...)]: a file name or the lines of a
    configuration. *)
Inductive infile : Type :=
| Filename (name : string)
| Lines (lines : list string).

(** The third component of the triples of [flatten_errors]: [False] for a
    missing key or section, otherwise the validation error (rendered with
    [%s]). *)
Inductive res : Type :=
| False_
| Error (reason : string).

(** [(section_list, key, res)]; [key] is [None] for a whole section. *)
Definition violation : Type := (list string * option string * res)%type.

(** What [config.validate(validator, preserve_errors=True)] returns, as the
    manager looks at it: [True], or something else that [flatten_errors]
    turns into triples. *)
Inductive results : Type :=
| True_
| Flattened (errors : list violation).

(** The operations of the package.  The grammar of configuration files, the
    validator and the merge are the package's, not the manager's. *)
Class Package : Type := {
  (** the parsed specification, [ConfigObj(spec, ..., _inspec=True)] *)
  configspec : Type;
  (** [ConfigObj(infile, interpolation=False, configspec=...)]: the parsed
      sections, or the exception of the parser *)
  ConfigObj : infile -> result dict;
  (** [config.validate(validator, preserve_errors=True)] for a [config]
      built with the given [configspec]: the exception raised, or the
      config as validation left it together with the results *)
  validate : configspec -> dict -> result (dict * results);
  (** [base.merge(indict)]: the new contents of [base] *)
  merge : dict -> dict -> dict
}.

End configobj.

(** ** [fg21sim.configs.manager] *)

Module manager.
Import Py PosixPath configobj.

(** *** The state the methods act on *)

(** The attributes of a [ConfigManager].  [userconfig] is [None] while the
    attribute does not exist ([hasattr(self, "userconfig")] is false). *)
Record ConfigManager {pkg : Package} : Type := {
  _configspec : configspec;
  _config : dict;
  userconfig : option string
}.

Inductive levelname : Type := INFO | WARNING.

(** A record handed to the module's [logger]: the message as written in the
    source, and for [str.format] templates the object formatted into it. *)
Record LogRecord : Type := {
  level : levelname;
  msg : string;
  args : list infile
}.

Record state {pkg : Package} : Type := {
  self : ConfigManager;
  logger : list LogRecord
}.

(** The part of the operating system the manager reads. *)
Record System : Type := {
  environ : Environ;
  (** [open(name).read()], or [None] when [open] raises [IOError] *)
  open_read : string -> option string
}.

Section Methods.
Context {pkg : Package} (sys : System).

(** Computations that read and write the manager and may raise. *)
Definition M (A : Type) : Type := state -> result A * state.

Definition ret {A : Type} (a : A) : M A := fun st => (Ok a, st).

Definition bind {A B : Type} (c : M A) (k : A -> M B) : M B :=
  fun st =>
    match c st with
    | (Ok a, st') => k a st'
    | (Raise e, st') => (Raise e, st')
    end.

Definition raise {A : Type} (e : exn) : M A := fun st => (Raise e, st).

Definition lift {A : Type} (r : result A) : M A := fun st => (r, st).

Definition get_self : M ConfigManager := fun st => (Ok (self st), st).

Definition set_self (m : ConfigManager) : M unit :=
  fun st => (Ok tt, {| self := m; logger := logger st |}).

Definition log (l : levelname) (m : string) (a : list infile) : M unit :=
  fun st =>
    (Ok tt,
     {| self := self st;
        logger := logger st ++ [{| level := l; msg := m; args := a |}] |}).

Notation "x <- c ;; k" := (bind c (fun x => k))
  (at level 61, c at next level, right associativity).
Notation "c ;;; k" := (bind c (fun _ => k))
  (at level 61, right associativity).

(** The line [msg] that [_validate] writes for one triple of
    [flatten_errors]. *)
Definition render (v : violation) : string :=
  match v with
  | (section_list, Some key, False_) =>
      "key " ++ dquote ++ key ++ dquote ++ " in section " ++ dquote
      ++ Py.join ", " section_list ++ dquote ++ " is missing."
  | (section_list, Some key, Error res) =>
      "key " ++ dquote ++ key ++ dquote ++ " in section " ++ dquote
      ++ Py.join ", " section_list ++ dquote ++ " failed validation: " ++ res
  | (section_list, None, _) =>
      "section " ++ dquote ++ Py.join "." section_list ++ dquote ++ " is missing"
  end.

(** The loop [error_msg += msg + "\n"] over the triples. *)
Definition error_msg (errors : list violation) : string :=
  fold_left (fun acc v => acc ++ render v ++ String newline "") errors "".

(** [_validate(self, config)].  The method reads nothing of [self]: the
    specification travels with [config], here as the first argument.  The
    handler of [ConfigObjError] evaluates [e.message], an attribute that
    exceptions do not have in Python 3: it ends in [AttributeError]. *)
Definition _validate (spec : configspec) (config : dict) : result dict :=
  match validate spec config with
  | Raise (ConfigObjError _) => Raise AttributeError
  | Raise e => Raise e
  | Ok (config', True_) => Ok config'
  | Ok (_, Flattened errors) => Raise (ConfigError (error_msg errors))
  end.

(** [read_config(self, config)] *)
Definition read_config (config : infile) : M unit :=
  me <- get_self ;;
  match ConfigObj config with
  | Raise (ConfigObjError e) => raise (ConfigError e)
  | Raise e => raise e
  | Ok newconfig =>
      newconfig <- lift (_validate (_configspec me) newconfig) ;;
      set_self {| _configspec := _configspec me;
                  _config := merge (_config me) newconfig;
                  userconfig := userconfig me |} ;;;
      log INFO "Loaded additional config: {0}" [config]
  end.

(** [read_userconfig(self, userconfig)] *)
Definition read_userconfig (filename : string) : M unit :=
  me <- get_self ;;
  match userconfig me with
  | Some loaded =>
      raise (ConfigError ("User configuration already loaded from "
                          ++ dquote ++ loaded ++ dquote))
  | None =>
      match open_read sys filename with
      | None =>
          raise (ConfigError ("Cannot read config from "
                              ++ dquote ++ filename ++ dquote))
      | Some content =>
          read_config (Lines (split newline content)) ;;;
          me <- get_self ;;
          set_self {| _configspec := _configspec me;
                      _config := _config me;
                      userconfig := Some (abspath (environ sys) filename) |} ;;;
          log INFO "Loaded user config: {0}" [Filename filename]
      end
  end.

(** [__init__(self, configs=None)].  The specification files found by
    [glob] are given by their names [configs_spec] and their parsed contents
    [spec].  Raising leaves no manager behind. *)
Fixpoint read_configs (configs : list infile) : M unit :=
  match configs with
  | [] => ret tt
  | config :: rest => read_config config ;;; read_configs rest
  end.

Definition __init__ (configs_spec : list string) (spec : configspec)
  (configs : list infile) (log0 : list LogRecord) : result state :=
  match _validate spec [] with
  | Raise e => Raise e
  | Ok config =>
      let st := {| self := {| _configspec := spec; _config := config;
                              userconfig := None |};
                   logger := log0 |} in
      match (log INFO ("Loaded default configs with specification: "
                       ++ Py.join ", " configs_spec) [] ;;;
             read_configs configs) st with
      | (Ok _, st') => Ok st'
      | (Raise e, _) => Raise e
      end
  end.

(** [get(self, key, fallback=None)] *)
Definition get (key : string) (fallback : value) : M value :=
  me <- get_self ;;
  ret (match dict_get (_config me) key with
       | Some v => v
       | None => fallback
       end).

(** The [keys] argument of [getn]: a [str] or a list of [str]. *)
Inductive keys_arg : Type :=
| KStr (s : string)
| KList (l : list string).

(** [getn(self, keys, sep="/")] *)
Definition getn (keys : keys_arg) (sep : ascii) : M value :=
  me <- get_self ;;
  let keys := match keys with
              | KStr s => split sep s
              | KList l => l
              end in
  lift (reduce dict_get_unbound keys (VSection (_config me))).

(** [os.path.expanduser(v)] of an arbitrary object: [TypeError] unless it is
    a [str]. *)
Definition expanduser_value (v : value) : result string :=
  match v with
  | VLeaf (LStr s) => Ok (expanduser (environ sys) s)
  | _ => Raise TypeError
  end.

(** [get_path(self, keys)] *)
Definition get_path (keys : keys_arg) : M string :=
  v <- getn keys "/" ;;
  path <- lift (expanduser_value v) ;;
  if negb (isabs path) then
    me <- get_self ;;
    match userconfig me with
    | Some uc => ret (PosixPath.join (dirname uc) path)
    | None =>
        log WARNING ("Cannot convert to absolute path: " ++ path) [] ;;;
        ret path
    end
  else ret path.

(** [v == "custom"] *)
Definition eq_str (v : value) (s : string) : bool :=
  match v with
  | VLeaf (LStr s') => String.eqb s' s
  | _ => false
  end.

(** The property [frequencies] *)
Definition frequencies : M value :=
  type <- getn (KStr "frequency/type") "/" ;;
  if eq_str type "custom" then
    getn (KStr "frequency/frequencies") "/"
  else
    start <- getn (KStr "frequency/start") "/" ;;
    stop <- getn (KStr "frequency/stop") "/" ;;
    step <- getn (KStr "frequency/step") "/" ;;
    d <- lift (sub stop start) ;;
    q <- lift (truediv (number d) step) ;;
    q1 <- lift (add_int (number q) 1) ;;
    num <- lift (int q1) ;;
    fs <- lift (comprehension
                  (fun i => match mul_int step i with
                            | Ok p => add start (number p)
                            | Raise e => Raise e
                            end)
                  (range num)) ;;
    ret (VLeaf (LList (map LNum fs))).

End Methods.

End manager.

(** ** The validation and merge engine

    The manager only calls [config.validate], [flatten_errors] and
    [base.merge]; their code belongs to the [configobj] package and is not
    part of this module.  The definitions below follow the system
    specification's description of the Validator (4.2) and of the
    MergeEngine (4.3). *)

Module engine.
Import Py configobj.

(** Modelled from the spec: the field declaration of the Schema (3), which is
    missing from the sources: a type with its coercion, optional constraints
    checked after coercion, and an optional default. *)
Record field : Type := {
  (** type coercion of a raw value: the typed value, or the reason of the
      failure *)
  coerce : value -> string + leaf;
  (** constraint check of a coerced value: [Some reason] on failure *)
  constraint : leaf -> option string;
  (** the declared default, if any *)
  default : option leaf
}.

(** Modelled from the spec: the Schema (3), which is missing from the
    sources: a tree of named sections, each holding named field
    declarations; [required] says that the section itself must be present. *)
Inductive schema : Type :=
| Schema (required : bool) (fields : list (string * field))
         (sections : list (string * schema)).

(** Modelled from the spec: whether the section a Schema (3) node describes
    is itself required (4.2), missing from the sources. *)
Definition required_of (s : schema) : bool :=
  match s with Schema r _ _ => r end.

(** Modelled from the spec: the Validator (4.2) on one declared field,
    missing from the sources.  Absent with a default: the default; absent
    without one: a missing-key violation; present: coercion, then the
    constraints, a failed-validation violation carrying the reason. *)
Definition validate_field (section_list : list string) (raw : dict)
  (key : string) (f : field) : leaf + violation :=
  match dict_get raw key with
  | None =>
      match default f with
      | Some x => inl x
      | None => inr (section_list, Some key, False_)
      end
  | Some v =>
      match coerce f v with
      | inl reason => inr (section_list, Some key, Error reason)
      | inr x =>
          match constraint f x with
          | Some reason => inr (section_list, Some key, Error reason)
          | None => inl x
          end
      end
  end.

(** Modelled from the spec: the lookup of a declared section in the
    RawConfigTree (3) by the Validator (4.2), missing from the sources: the
    subsection [name] of a raw tree, if it is there and is a section. *)
Definition subsection (raw : dict) (name : string) : option dict :=
  match dict_get raw name with
  | Some (VSection r) => Some r
  | _ => None
  end.

(** Modelled from the spec: the raw entries the Validator (4.2), missing
    from the sources, finds in a section: none when the section is absent. *)
Definition entries (o : option dict) : dict :=
  match o with Some r => r | None => [] end.

(** Modelled from the spec: the violations the Validator (4.2), missing from
    the sources, collects over the whole tree: those of the fields of a
    section, then for each declared subsection the missing-section violation
    (if the section is required and absent) and the violations inside it. *)
Fixpoint violations (s : schema) (section_list : list string) (raw : dict)
  : list violation :=
  match s with
  | Schema _ fields sections =>
     (flat_map (fun kf : string * field =>
                  let (key, f) := kf in
                  match validate_field section_list raw key f with
                  | inl _ => []
                  | inr v => [v]
                  end) fields
      ++ flat_map (fun ks : string * schema =>
                     let (name, sub) := ks in
                     (match subsection raw name, required_of sub with
                      | None, true => [((section_list ++ [name])%list, None, False_)]
                      | _, _ => []
                      end
                      ++ violations sub (section_list ++ [name])%list
                           (entries (subsection raw name)))%list) sections)%list
  end.

(** Modelled from the spec: the ValidatedConfigTree (3) built by the
    Validator (4.2), missing from the sources: one entry per declared field
    (the coerced value from the source, else the default), one section per
    declared section; keys the schema does not declare are ignored. *)
Fixpoint resolve (s : schema) (raw : dict) : dict :=
  match s with
  | Schema _ fields sections =>
      fold_left (fun (config : dict) (ks : string * schema) =>
                   let (name, sub) := ks in
                   dict_set config name
                     (VSection (resolve sub (entries (subsection raw name)))))
        sections
        (fold_left (fun (config : dict) (kf : string * field) =>
                      let (key, f) := kf in
                      match validate_field [] raw key f with
                      | inl x => dict_set config key (VLeaf x)
                      | inr _ => config
                      end) fields [])
  end.

(** Modelled from the spec: [validate(rawTree, schema)] of the Validator
    (4.2), missing from the sources, in the shape the manager consumes: the
    validated tree when there is no violation, else all the violations. *)
Definition validate (s : schema) (raw : dict) : result (dict * results) :=
  Ok (resolve s raw,
      match violations s [] raw with
      | [] => True_
      | errors => Flattened errors
      end).

(** Modelled from the spec: one step of [merge] of the MergeEngine (4.3),
    missing from the sources: a subsection of the overlay is merged into the
    subsection of the base, any other value replaces the one of the base. *)
Fixpoint merge_value (overlay : value) (base : dict) {struct overlay} : dict :=
  match overlay with
  | VLeaf _ => base
  | VSection items =>
      fold_left (fun (b : dict) (kv : string * value) =>
                   let (k, v) := kv in
                   match v, dict_get b k with
                   | VSection _, Some (VSection b') =>
                       dict_set b k (VSection (merge_value v b'))
                   | _, _ => dict_set b k v
                   end) items base
  end.

(** Modelled from the spec: [merge(base, overlay)] of the MergeEngine (4.3),
    missing from the sources: deep and section-wise, the overlay's fields
    replace the base's, fields absent from the overlay are left untouched. *)
Definition merge (base overlay : dict) : dict := merge_value (VSection overlay) base.

(** Modelled from the spec: a package the manager calls, missing from the
    sources, with the MergeEngine (4.3) above, for any parser of the
    external grammar and any validator. *)
Definition merging (S : Type) (parse : infile -> result dict)
  (validate : S -> dict -> result (dict * results)) : Package :=
  {| configspec := S;
     ConfigObj := parse;
     configobj.validate := validate;
     configobj.merge := merge |}.

(** Modelled from the spec: the package the manager calls, missing from the
    sources, with the Validator (4.2) and the MergeEngine (4.3) above, for
    any parser of the external grammar. *)
Definition package (parse : infile -> result dict) : Package :=
  merging schema parse validate.

End engine.

(** ** Validation of an empty config by [configobj]

    [__init__] validates an empty [ConfigObj] against the specification
    (lines 43 to 45).  What [Section.validate], [Validator.check] and
    [flatten_errors] of the package do on such a config is embedded here:
    every declared section is first created empty, every declared entry is
    missing, and a created section in which nothing passed is reported as a
    whole.  The reserved names of the package ([__many__], [___many___] and
    a top-level [DEFAULT]) are skipped as the package skips them. *)

Module defaults.
Import Py configobj.

(** A check of the specification, as [Validator.check] uses it for a
    missing entry: the [default=...] of the check, if it has one, and the
    check function, which returns the converted value or raises an error
    (given by its text). *)
Record check : Type := {
  check_value : leaf -> string + leaf;
  check_default : option leaf
}.

(** A parsed specification: the entries ([configspec.scalars]) and the
    subsections ([configspec.sections]) of a section, in the order of the
    file.  The names of one section are distinct, as the keys of a [dict]
    are. *)
Inductive spec : Type :=
| Spec (scalars : list (string * check)) (sections : list (string * spec)).

(** What [validator.check(check, None, missing=True)] does: it raises
    [VdtMissingValue] without a default, returns [None] for the default
    [None], and otherwise runs the check function on the default. *)
Inductive checked : Type :=
| Missing
| Failed (reason : string)
| Passed (x : leaf).

Definition check_missing (c : check) : checked :=
  match check_default c with
  | None => Missing
  | Some LNone => Passed LNone
  | Some d =>
      match check_value c d with
      | inl reason => Failed reason
      | inr x => Passed x
      end
  end.

(** What [out] holds for an entry: [True], [False] (missing), or the error
    that was preserved. *)
Inductive entry : Type :=
| ETrue
| EFalse
| EError (reason : string).

(** What [validate] returns for a section: [True], [False], or the [dict]
    [out], whose items are those of the entries followed by those of the
    subsections. *)
Inductive outcome : Type :=
| OTrue
| OFalse
| ODict (entries : list (string * entry)) (subsections : list (string * outcome)).

Definition reserved (name : string) : bool :=
  String.eqb name "__many__" || String.eqb name "___many___".

(** [validate(validator, preserve_errors=True, section=...)] on a section
    without entries; [top] tells the config itself ([section is self], which
    was not [_created]) from a section that validation created.  The loops
    carry the section being filled, [out], [ret_true] and [ret_false].
    Whether a subsection that returned its [dict] clears [ret_false] of the
    section above it is the parameter [clears] of the embedding: what is
    proved of the report holds either way. *)
Fixpoint validate (clears top : bool) (s : spec) : dict * outcome :=
  match s with
  | Spec scalars sections =>
      let created :=
        fold_left (fun (section : dict) (ks : string * spec) =>
                     if String.eqb (fst ks) "__many__" then section
                     else dict_set section (fst ks) (VSection []))
          sections [] in
      let '(section1, out1, ret_true1, ret_false1) :=
        fold_left (fun (acc : dict * list (string * entry) * bool * bool)
                       (kc : string * check) =>
                     let '(section, out, ret_true, ret_false) := acc in
                     if reserved (fst kc) then acc
                     else match check_missing (snd kc) with
                          | Missing =>
                              (section, (out ++ [(fst kc, EFalse)])%list,
                               false, ret_false)
                          | Failed reason =>
                              (section, (out ++ [(fst kc, EError reason)])%list,
                               false, false)
                          | Passed x =>
                              (dict_set section (fst kc) (VLeaf x),
                               (out ++ [(fst kc, ETrue)])%list, ret_true, false)
                          end)
          scalars (created, [], true, true) in
      let '(section2, out2, ret_true2, ret_false2) :=
        fold_left (fun (acc : dict * list (string * outcome) * bool * bool)
                       (ks : string * spec) =>
                     let '(section, out, ret_true, ret_false) := acc in
                     if String.eqb (fst ks) "__many__"
                        || (top && String.eqb (fst ks) "DEFAULT") then acc
                     else
                       let '(sub, check) := validate clears false (snd ks) in
                       (dict_set section (fst ks) (VSection sub),
                        (out ++ [(fst ks, check)])%list,
                        match check with OTrue => ret_true | _ => false end,
                        match check with
                        | OTrue => false
                        | OFalse => ret_false
                        | ODict _ _ => if clears then false else ret_false
                        end))
          sections (section1, [], ret_true1, ret_false1) in
      let ret_false3 := if top then false else ret_false2 in
      let nonempty :=
        match out1, out2 with [], [] => false | _, _ => true end in
      (section2,
       if ret_false3 && nonempty then OFalse
       else if ret_true2 then OTrue
       else if ret_false3 then OFalse
       else ODict out1 out2)
  end.

(** [flatten_errors(cfg, res)] before it sorts: [levels] is the list of
    section names down to the section [res] belongs to.  The keys of [res]
    that lead to a section of the config are those of the subsections. *)
Fixpoint flatten (res : outcome) (levels : list string) : list violation :=
  match res with
  | OTrue => []
  | OFalse => [(levels, None, False_)]
  | ODict entries subsections =>
      (flat_map (fun ke : string * entry =>
                   match snd ke with
                   | ETrue => []
                   | EFalse => [(levels, Some (fst ke), False_)]
                   | EError reason => [(levels, Some (fst ke), Error reason)]
                   end) entries
       ++ flat_map (fun kr : string * outcome =>
                      flatten (snd kr) (levels ++ [fst kr])%list) subsections)%list
  end.

(** The order of Python on lists of [str]. *)
Fixpoint compare_levels (a b : list string) : comparison :=
  match a, b with
  | [], [] => Eq
  | [], _ :: _ => Lt
  | _ :: _, [] => Gt
  | x :: a', y :: b' =>
      match String.compare x y with
      | Eq => compare_levels a' b'
      | c => c
      end
  end.

(** The order of the triples: by section list, then by key.  Two triples
    with the same section list never have one a key and the other [None],
    and never the same key: the third component is not compared. *)
Definition before (a b : violation) : bool :=
  match compare_levels (fst (fst a)) (fst (fst b)) with
  | Lt => true
  | Gt => false
  | Eq =>
      match snd (fst a), snd (fst b) with
      | Some x, Some y => String.leb x y
      | None, _ => true
      | Some _, None => false
      end
  end.

Fixpoint insert (v : violation) (l : list violation) : list violation :=
  match l with
  | [] => [v]
  | w :: l' => if before w v then w :: insert v l' else v :: l
  end.

(** [sorted(results)] *)
Definition sorted (l : list violation) : list violation :=
  fold_left (fun acc v => insert v acc) l [].

(** [flatten_errors(config, results)] *)
Definition flatten_errors (res : outcome) : list violation :=
  sorted (flatten res []).

(** [config.validate(validator, preserve_errors=True)] as the manager sees
    it, for the empty config; [nonempty] stands for what the package does on
    any other config. *)
Definition validate_with (clears : bool)
  (nonempty : spec -> dict -> result (dict * results))
  (s : spec) (config : dict) : result (dict * results) :=
  match config with
  | [] =>
      let (validated, res) := validate clears true s in
      Ok (validated,
          match res with
          | OTrue => True_
          | _ => Flattened (flatten_errors res)
          end)
  | _ :: _ => nonempty s config
  end.

(** The package with this validation of the empty config, for any parser
    and whatever the package does on other configs and to merge. *)
Definition package (clears : bool) (parse : infile -> result dict)
  (nonempty : spec -> dict -> result (dict * results))
  (merge : dict -> dict -> dict) : Package :=
  {| configspec := spec;
     ConfigObj := parse;
     configobj.validate := validate_with clears nonempty;
     configobj.merge := merge |}.

(** Under a specification that declares nothing (no specification file is
    found beside the module), every entry of a config is an extra value:
    validation passes and returns the config as it was parsed. *)
Definition unspecified (parse : infile -> result dict) : Package :=
  engine.merging unit parse (fun _ config => Ok (config, True_)).

End defaults.

(** ** Notions used to state the properties *)

Module props.
Import Py PosixPath configobj manager.

(** The value a key path leads to, walking the tree one key per level;
    [None] when a key is absent or a level is not a section. *)
Fixpoint lookup (v : value) (path : list string) : option value :=
  match path with
  | [] => Some v
  | k :: path' =>
      match v with
      | VSection d =>
          match dict_get d k with
          | Some v' => lookup v' path'
          | None => None
          end
      | VLeaf _ => None
      end
  end.

(** The field (a value that is not a section) stored at a key path. *)
Definition field_at (d : dict) (path : list string) : option leaf :=
  match lookup (VSection d) path with
  | Some (VLeaf x) => Some x
  | _ => None
  end.

(** Some intermediate level of the key path (a proper, non-empty prefix) is
    absent from the tree or is not a section. *)
Definition broken_path (d : dict) (path : list string) : Prop :=
  exists pre suf,
    path = (pre ++ suf)%list /\ pre <> [] /\ suf <> [] /\
    match lookup (VSection d) pre with
    | Some (VSection _) => False
    | _ => True
    end.

(** The keys [getn] walks for its [keys] argument. *)
Definition key_list (keys : keys_arg) (sep : ascii) : list string :=
  match keys with
  | KStr s => split sep s
  | KList l => l
  end.

(** The float nearest to an integer, ties to even. *)
Definition nearest (z : Z) : float :=
  SF2Prim (binary_normalize prec emax z 0 false).

(** The float a decimal literal of a configuration denotes: the one nearest
    to the fraction [n/d]. *)
Definition num (n : Z) (d : positive) : value :=
  number (nearest n / nearest (Zpos d))%float.

(** The rational number a finite float is. *)
Definition exact (f : float) : Q :=
  match Prim2SF f with
  | S754_finite s m e => (inject_Z (cond_Zopp s (Zpos m)) * Qpower 2 e)%Q
  | _ => 0%Q
  end.

(** The count [floor((stop - start) / step) + 1] of the exact values. *)
Definition exact_count (start stop step : float) : Z :=
  (Qfloor ((exact stop - exact start) / exact step) + 1)%Z.

(** Stop is a whole number [k] of steps away from start, exactly. *)
Definition on_step_boundary (start stop step : float) (k : Z) : Prop :=
  (exact stop == exact start + inject_Z k * exact step)%Q.

Section WithPackage.
Context {pkg : Package}.

(** Validation of a parsed config fails: the results of [validate] are not
    [True]. *)
Definition validation_fails (spec : configspec) (raw : dict) : Prop :=
  exists config errors, validate spec raw = Ok (config, Flattened errors).

(** Parsing or validation of an input source fails: the parser raises its
    [ConfigObjError], or the parsed config does not validate. *)
Definition load_fails (spec : configspec) (config : infile) : Prop :=
  (exists e, ConfigObj config = Raise (ConfigObjError e)) \/
  (exists raw, ConfigObj config = Ok raw /\ validation_fails spec raw).

(** The validated layer an input source yields. *)
Definition layer (spec : configspec) (config : infile) : result dict :=
  match ConfigObj config with
  | Ok raw => _validate spec raw
  | Raise e => Raise e
  end.

(** The state a successful [read_config] leaves: the layer merged in, one
    more log record. *)
Definition merged_state (config : infile) (newconfig : dict) (st : state) : state :=
  {| self := {| _configspec := _configspec (self st);
                _config := merge (_config (self st)) newconfig;
                userconfig := userconfig (self st) |};
     logger := logger st ++ [{| level := INFO;
                                msg := "Loaded additional config: {0}";
                                args := [config] |}] |}.

(** The state a successful [read_userconfig] leaves: the lines of the file
    merged in as by [read_config], the absolute path recorded, one more log
    record. *)
Definition userconfig_state (sys : System) (filename content : string)
  (newconfig : dict) (st : state) : state :=
  let st1 := merged_state (Lines (split newline content)) newconfig st in
  {| self := {| _configspec := _configspec (self st1);
                _config := _config (self st1);
                userconfig := Some (abspath (environ sys) filename) |};
     logger := logger st1 ++ [{| level := INFO;
                                 msg := "Loaded user config: {0}";
                                 args := [Filename filename] |}] |}.

(** The record [get_path] logs for a path it cannot make absolute. *)
Definition cannot_convert (path : string) : LogRecord :=
  {| level := WARNING;
     msg := "Cannot convert to absolute path: " ++ path;
     args := [] |}.

End WithPackage.

(** *** Merged trees *)

Import engine.

(** No section of the tree holds a key twice. *)
Fixpoint distinct_keys (v : value) : Prop :=
  match v with
  | VLeaf _ => True
  | VSection d =>
      NoDup (keys d) /\
      (fix all (d : dict) : Prop :=
         match d with
         | [] => True
         | kv :: d' => distinct_keys (snd kv) /\ all d'
         end) d
  end.

(** One step of [merge]: what it does with one entry of the overlay. *)
Definition merge_entry (b : dict) (kv : string * value) : dict :=
  let (k, v) := kv in
  match v, dict_get b k with
  | VSection _, Some (VSection b') => dict_set b k (VSection (merge_value v b'))
  | _, _ => dict_set b k v
  end.

(** The tree holds an entry on the key path: walking the path, one meets a
    value that is not a section, or the path ends on a section.  Otherwise
    the walk falls off the tree at a key that is absent. *)
Fixpoint entry_on_path (d : dict) (path : list string) : bool :=
  match path with
  | [] => false
  | k :: path' =>
      match dict_get d k with
      | None => false
      | Some (VLeaf _) => true
      | Some (VSection d') =>
          match path' with
          | [] => true
          | _ :: _ => entry_on_path d' path'
          end
      end
  end.

(** One line of the report of [_validate]. *)
Definition line (v : violation) : string := render v ++ String newline "".

(** *** Specifications validated against an empty config *)

Import defaults.

(** The entries validation checks, each with the path of its section:
    those of the specification but for the reserved names. *)
Fixpoint declared (top : bool) (s : spec) : list (list string * string * check) :=
  match s with
  | Spec scalars sections =>
      (flat_map (fun kc : string * check =>
                   if reserved (fst kc) then [] else [([], fst kc, snd kc)])
         scalars
       ++ flat_map (fun ks : string * spec =>
                      if String.eqb (fst ks) "__many__"
                         || (top && String.eqb (fst ks) "DEFAULT") then []
                      else map (fun d : list string * string * check =>
                                  (fst ks :: fst (fst d), snd (fst d), snd d))
                             (declared false (snd ks))) sections)%list
  end.

(** The names of the entries and subsections of every section are pairwise
    distinct. *)
Fixpoint distinct_names (s : spec) : Prop :=
  match s with
  | Spec scalars sections =>
      NoDup (map fst scalars ++ map fst sections) /\
      (fix all (ss : list (string * spec)) : Prop :=
         match ss with
         | [] => True
         | ks :: ss' => distinct_names (snd ks) /\ all ss'
         end) sections
  end.

(** What the loops of [validate] leave, read off the specification: the
    items of [out], the two flags, the value returned, and the entries and
    sections that were set. *)
Definition entry_of (c : checked) : entry :=
  match c with
  | Missing => EFalse
  | Failed reason => EError reason
  | Passed _ => ETrue
  end.

Definition skipped (top : bool) (name : string) : bool :=
  String.eqb name "__many__" || (top && String.eqb name "DEFAULT").

Definition out_entries (scalars : list (string * check)) : list (string * entry) :=
  flat_map (fun kc : string * check =>
              if reserved (fst kc) then []
              else [(fst kc, entry_of (check_missing (snd kc)))]) scalars.

Definition out_sections (clears top : bool) (sections : list (string * spec))
  : list (string * outcome) :=
  flat_map (fun ks : string * spec =>
              if skipped top (fst ks) then []
              else [(fst ks, snd (validate clears false (snd ks)))]) sections.

Definition passed (e : entry) : bool :=
  match e with ETrue => true | _ => false end.

Definition missing (e : entry) : bool :=
  match e with EFalse => true | _ => false end.

Definition is_true (r : outcome) : bool :=
  match r with OTrue => true | _ => false end.

(** A subsection that leaves [ret_false] as it is. *)
Definition keeps_false (clears : bool) (r : outcome) : bool :=
  match r with
  | OTrue => false
  | OFalse => true
  | ODict _ _ => negb clears
  end.

Definition ret_true_of (entries : list (string * entry))
  (subsections : list (string * outcome)) : bool :=
  forallb (fun ke => passed (snd ke)) entries
  && forallb (fun kr => is_true (snd kr)) subsections.

Definition ret_false_of (clears : bool) (entries : list (string * entry))
  (subsections : list (string * outcome)) : bool :=
  forallb (fun ke => missing (snd ke)) entries
  && forallb (fun kr => keeps_false clears (snd kr)) subsections.

Definition returned (clears top : bool) (entries : list (string * entry))
  (subsections : list (string * outcome)) : outcome :=
  let ret_false :=
    if top then false else ret_false_of clears entries subsections in
  let nonempty :=
    match entries, subsections with [], [] => false | _, _ => true end in
  if ret_false && nonempty then OFalse
  else if ret_true_of entries subsections then OTrue
  else if ret_false then OFalse
  else ODict entries subsections.

Definition created_section (ks : string * spec) : option value :=
  if String.eqb (fst ks) "__many__" then None else Some (VSection []).

Definition default_value (kc : string * check) : option value :=
  if reserved (fst kc) then None
  else match check_missing (snd kc) with
       | Passed x => Some (VLeaf x)
       | _ => None
       end.

Definition validated_section (clears top : bool) (ks : string * spec)
  : option value :=
  if skipped top (fst ks) then None
  else Some (VSection (fst (validate clears false (snd ks)))).

(** The line of the report for a violation, as the messages of the module
    spell it. *)
Definition report_line (v : violation) : string :=
  match v with
  | (section_list, Some key, False_) =>
      "key " ++ dquote ++ key ++ dquote ++ " in section " ++ dquote
      ++ Py.join ", " section_list ++ dquote ++ " is missing."
      ++ String newline ""
  | (section_list, Some key, Error reason) =>
      "key " ++ dquote ++ key ++ dquote ++ " in section " ++ dquote
      ++ Py.join ", " section_list ++ dquote ++ " failed validation: "
      ++ reason ++ String newline ""
  | (section_list, None, _) =>
      "section " ++ dquote ++ Py.join "." section_list ++ dquote
      ++ " is missing" ++ String newline ""
  end.

(** The section list [q] is a beginning of the section list [p]. *)
Definition leads_to (q p : list string) : Prop := exists r, p = (q ++ r)%list.

(** The violation tells that the entry [k] of the section at [p] is
    missing: it is the missing-key triple of the entry, or the
    missing-section triple of that section or of a section above it. *)
Definition reports (v : violation) (p : list string) (k : string) : Prop :=
  v = (p, Some k, False_) \/ exists q, leads_to q p /\ v = (q, None, False_).

(** No [out] holds a name twice. *)
Fixpoint distinct_out (r : outcome) : Prop :=
  match r with
  | OTrue | OFalse => True
  | ODict entries subsections =>
      NoDup (map fst entries) /\ NoDup (map fst subsections) /\
      (fix all (rs : list (string * outcome)) : Prop :=
         match rs with
         | [] => True
         | kr :: rs' => distinct_out (snd kr) /\ all rs'
         end) subsections
  end.

(** A violation that tells of a missing key. *)
Definition is_missing_key (v : violation) : bool :=
  match v with
  | (_, Some _, False_) => true
  | _ => false
  end.

Definition lacks_default (d : list string * string * check) : bool :=
  match check_default (snd d) with Some _ => false | None => true end.

End props.


(** ** A small installation, to run the manager on *)

Module examples.
Import Py PosixPath configobj manager engine props.

(** A field of any type, without constraints. *)
Definition any (d : option leaf) : field :=
  {| coerce := fun v => match v with
                        | VLeaf x => inr x
                        | VSection _ => inl "the value is of the wrong type."
                        end;
     constraint := fun _ => None;
     default := d |}.

(** A specification in which every field has a default. *)
Definition spec_ex : schema :=
  Schema false []
    [("frequency",
      Schema false
        [("type", any (Some (LStr "custom")));
         ("frequencies", any (Some (LList [])));
         ("start", any (Some LNone));
         ("stop", any (Some LNone));
         ("step", any (Some LNone))] []);
     ("input", Schema false [("template", any (Some (LStr "data/in.txt")))] [])].

(** A specification with fields that have no default, in a required and in
    an optional section. *)
Definition spec_strict : schema :=
  Schema false [("name", any None); ("level", any (Some (LStr "INFO")))]
    [("output", Schema true [("filename", any None); ("clobber", any (Some (LBool false)))] []);
     ("extra", Schema false [("comment", any None)] [])].

Definition calc_1_10_3 : dict :=
  [("frequency",
    VSection [("type", VLeaf (LStr "calc"));
              ("frequencies", VLeaf (LList []));
              ("start", num 1 1); ("stop", num 10 1); ("step", num 3 1)]);
   ("input", VSection [("template", VLeaf (LStr "data/in.txt"))])].

Definition calc_step_0 : dict :=
  [("frequency",
    VSection [("type", VLeaf (LStr "calc"));
              ("frequencies", VLeaf (LList []));
              ("start", num 1 1); ("stop", num 10 1); ("step", num 0 1)]);
   ("input", VSection [("template", VLeaf (LStr "/data/in.txt"))])].

Definition custom_list : dict :=
  [("frequency",
    VSection [("type", VLeaf (LStr "custom"));
              ("frequencies", VLeaf (LList [LNum 2.5%float; LNum 7.1%float]));
              ("start", VLeaf LNone); ("stop", VLeaf LNone); ("step", VLeaf LNone)]);
   ("input", VSection [("template", VLeaf (LStr "/data/in.txt"))])].

(** A config that asks for frequencies computed from the given numbers. *)
Definition calc (start stop step : float) : dict :=
  [("frequency",
    VSection [("type", VLeaf (LStr "calc"));
              ("frequencies", VLeaf (LList []));
              ("start", number start); ("stop", number stop);
              ("step", number step)])].

(** A parser that knows three texts: a malformed one, one that sets the
    frequency type, and one that nests an unknown section. *)
Definition parse_ex (config : infile) : result dict :=
  match config with
  | Lines (first :: _) =>
      if String.eqb first "[" then
        Raise (ConfigObjError "Invalid line ('[') (matched as neither section nor keyword) at line 1.")
      else if String.eqb first "[frequency]" then
        Ok [("frequency", VSection [("type", VLeaf (LStr "calc"))])]
      else if String.eqb first "[input]" then
        Ok [("input", VSection [("template", VSection [])])]
      else Ok []
  | _ => Ok []
  end.

Definition pkg_ex : Package := package parse_ex.

(** A parser for three layers that use names no specification declares. *)
Definition parse_layers (config : infile) : result dict :=
  match config with
  | Lines (first :: _) =>
      if String.eqb first "note = a" then
        Ok [("note", VLeaf (LStr "a"));
            ("foo", VSection [("x", VLeaf (LStr "1"))])]
      else if String.eqb first "foo = 5" then
        Ok [("foo", VLeaf (LStr "5"))]
      else if String.eqb first "bar = b" then
        Ok [("bar", VLeaf (LStr "b"))]
      else Ok []
  | _ => Ok []
  end.

Definition layer_note_foo : infile := Lines ["note = a"; "[foo]"; "x = 1"].
Definition layer_foo : infile := Lines ["foo = 5"].
Definition layer_bar : infile := Lines ["bar = b"].

(** The manager built without any specification file. *)
Definition init_unspecified : @state (defaults.unspecified parse_layers) :=
  match __init__ (pkg := defaults.unspecified parse_layers) [] tt [] [] with
  | Ok st => st
  | Raise _ =>
      {| self := @Build_ConfigManager (defaults.unspecified parse_layers)
                   tt [] None;
         logger := [] |}
  end.

(** A check that accepts every value as it is. *)
Definition string_check (d : option leaf) : defaults.check :=
  {| defaults.check_value := fun x => inr x; defaults.check_default := d |}.

(** A check that accepts only [True] and [False], as written or as a
    [bool]. *)
Definition boolean_check (d : option leaf) : defaults.check :=
  {| defaults.check_value := fun x =>
       match x with
       | LBool b => inr (LBool b)
       | LStr "True" => inr (LBool true)
       | LStr "False" => inr (LBool false)
       | LStr s => inl ("the value " ++ dquote ++ s ++ dquote
                        ++ " is of the wrong type.")
       | _ => inl "the value is of the wrong type."
       end;
     defaults.check_default := d |}.

(** A specification with entries that have no default: at the top, in a
    section beside an entry that has one, and alone in a section. *)
Definition spec_missing : defaults.spec :=
  defaults.Spec
    [("name", string_check None); ("level", string_check (Some (LStr "INFO")))]
    [("output",
      defaults.Spec [("filename", string_check None);
                     ("clobber", boolean_check (Some (LStr "False")))] []);
     ("extra", defaults.Spec [("comment", string_check None)] [])].

(** A specification in which every entry has a default that passes its
    check. *)
Definition spec_defaults : defaults.spec :=
  defaults.Spec
    [("level", string_check (Some (LStr "INFO")))]
    [("output",
      defaults.Spec [("filename", string_check (Some LNone));
                     ("clobber", boolean_check (Some (LStr "False")))] [])].

(** A specification with a default that does not pass its check. *)
Definition spec_bad_default : defaults.spec :=
  defaults.Spec [("verbose", boolean_check (Some (LStr "Bad_value")))] [].

(** A name between double quotes. *)
Definition quoted (s : string) : string := dquote ++ s ++ dquote.

(** What the package does on other configs than the empty one is not
    needed to run the constructor. *)
Definition pkg_defaults (clears : bool) : Package :=
  defaults.package clears parse_ex (fun _ config => Ok (config, True_))
    engine.merge.

(** A specification with nested sections, in which only an entry of the
    innermost section has a default. *)
Definition spec_nested : defaults.spec :=
  defaults.Spec []
    [("galactic",
      defaults.Spec [("unit", string_check None)]
        [("synchrotron",
          defaults.Spec [("template", string_check None);
                         ("save", boolean_check (Some (LStr "True")))] [])])].

Definition sys_ex : System :=
  {| environ := {| getcwd := "/work";
                   environ_HOME := Some "/home/u";
                   getpwuid_dir := None;
                   getpwnam_dir := fun _ => None |};
     open_read := fun name =>
       if String.eqb name "user.conf" then
         Some ("[frequency]" ++ String newline "type = calc")
       else if String.eqb name "broken.conf" then Some "["
       else if String.eqb name "wrong.conf" then
         Some ("[input]" ++ String newline "[[template]]")
       else None |}.

(** A package whose validation raises an error of its own. *)
Definition pkg_raising : Package :=
  merging unit parse_ex (fun _ _ => Raise (ConfigObjError "cannot validate")).

Definition manager_ex (config : dict) (uc : option string) : @state pkg_ex :=
  {| self := @Build_ConfigManager pkg_ex spec_ex config uc; logger := [] |}.

(** The manager [ConfigManager()] of the installation. *)
Definition init_ex : @state pkg_ex :=
  match __init__ (pkg := pkg_ex) ["00-general.conf.spec"] spec_ex [] [] with
  | Ok st => st
  | Raise _ => manager_ex [] None
  end.

End examples.

(** ** Further notions, for the properties beyond the nested access *)

Module more.
Import Py PosixPath configobj manager props.

Section WithPackage.
Context {pkg : Package}.

(** The manager looking at another tree: the state with [_config]
    replaced. *)
Definition with_config (st : state) (d : dict) : state :=
  {| self := {| _configspec := _configspec (self st);
                _config := d;
                userconfig := userconfig (self st) |};
     logger := logger st |}.

(** The record [read_config] logs for a config it has merged. *)
Definition loaded_config (config : infile) : LogRecord :=
  {| level := INFO; msg := "Loaded additional config: {0}"; args := [config] |}.

(** The record [__init__] logs once the defaults are validated. *)
Definition loaded_defaults (configs_spec : list string) : LogRecord :=
  {| level := INFO;
     msg := "Loaded default configs with specification: "
            ++ Py.join ", " configs_spec;
     args := [] |}.

End WithPackage.

End more.

(** ** The property [logging] of the manager *)

Module logconf.
Import Py configobj.

(** What the property can raise: an exception of [Py.exn], the [KeyError]
    of a subscript, the [AttributeError] of [getattr], or what opening the
    log file raises. *)
Inductive raised : Type :=
| Exn (e : exn)
| KeyError (key : string)
| AttributeError (name : string)
| OSError (reason : string).

Inductive outcome (A : Type) : Type :=
| Return (a : A)
| Raised (r : raised).
Arguments Return {A} a.
Arguments Raised {A} r.

(** What the property reads from the interpreter it runs in. *)
Record Interpreter : Type := {
  (** [hasattr(sys, name)] *)
  sys_hasattr : string -> bool;
  (** [hasattr(logging, name)], for the module [logging] *)
  logging_hasattr : string -> bool;
  (** what [FileHandler(logfile, mode=filemode)] raises when it opens the
      file, if anything *)
  open_logfile : string -> value -> option raised
}.

(** The handlers the property constructs: [StreamHandler(getattr(sys,
    stream))], the stream given by the name of the attribute, and
    [FileHandler(logfile, mode=filemode)]. *)
Inductive handler : Type :=
| StreamHandler (stream : string)
| FileHandler (logfile : string) (mode : value).

(** The [dict] the property returns; [level] is the attribute of the module
    [logging], given by its name. *)
Record logconf : Type := {
  level : string;
  format : value;
  datefmt : value;
  filemode : value;
  handlers : list handler
}.

(** [conf[key]]: the [KeyError] of a section without the key, the
    [TypeError] of anything that is not a section. *)
Definition getitem (conf : value) (key : string) : outcome value :=
  match conf with
  | VSection d =>
      match dict_get d key with
      | Some v => Return v
      | None => Raised (KeyError key)
      end
  | VLeaf _ => Raised (Exn TypeError)
  end.

(** The truth value of an object in [if v:]. *)
Definition truthy (v : value) : bool :=
  match v with
  | VLeaf LNone => false
  | VLeaf (LBool b) => b
  | VLeaf (LNum f) => negb (PrimFloat.eqb f 0%float)
  | VLeaf (LStr s) => negb (String.eqb s "")
  | VLeaf (LList xs) => match xs with [] => false | _ => true end
  | VSection d => match d with [] => false | _ => true end
  end.

(** [getattr(module, name)], the result given by its name: [TypeError]
    unless the name is a [str], [AttributeError] when there is no such
    attribute. *)
Definition getattr (hasattr : string -> bool) (name : value) : outcome string :=
  match name with
  | VLeaf (LStr s) => if hasattr s then Return s else Raised (AttributeError s)
  | VLeaf _ | VSection _ => Raised (Exn TypeError)
  end.

(** [FileHandler(logfile, mode=filemode)]: [TypeError] unless the file name
    is a [str]; the constructor opens the file. *)
Definition new_FileHandler (py : Interpreter) (logfile filemode : value)
  : outcome handler :=
  match logfile with
  | VLeaf (LStr s) =>
      match open_logfile py s filemode with
      | Some r => Raised r
      | None => Return (FileHandler s filemode)
      end
  | VLeaf _ | VSection _ => Raised (Exn TypeError)
  end.

Section Property.
Context {pkg : Package} (py : Interpreter).

(** The body of the property threads the local list [handlers]; the list is
    returned beside the outcome, so that what was constructed before an
    exception stays visible. *)
Definition L (A : Type) : Type := list handler -> outcome A * list handler.

Definition bindL {A B : Type} (c : L A) (k : A -> L B) : L B :=
  fun hs =>
    match c hs with
    | (Return a, hs') => k a hs'
    | (Raised r, hs') => (Raised r, hs')
    end.

Definition liftL {A : Type} (o : outcome A) : L A := fun hs => (o, hs).

(** [handlers.append(h)] *)
Definition append (h : handler) : L unit := fun hs => (Return tt, (hs ++ [h])%list).

Notation "x <- c ;; k" := (bindL c (fun x => k))
  (at level 61, c at next level, right associativity).
Notation "c ;;; k" := (bindL c (fun _ => k))
  (at level 61, right associativity).

(** The property [logging] *)
Definition logging (st : manager.state) : outcome logconf * list handler :=
  match fst (manager.get "logging" None_ st) with
  | Raise e => (Raised (Exn e), [])
  | Ok conf =>
      (stream <- liftL (getitem conf "stream") ;;
       (if truthy stream then
          s <- liftL (getattr (sys_hasattr py) stream) ;;
          append (StreamHandler s)
        else liftL (Return tt)) ;;;
       logfile <- liftL (getitem conf "filename") ;;
       filemode <- liftL (getitem conf "filemode") ;;
       (if truthy logfile then
          h <- liftL (new_FileHandler py logfile filemode) ;;
          append h
        else liftL (Return tt)) ;;;
       level_name <- liftL (getitem conf "level") ;;
       level <- liftL (getattr (logging_hasattr py) level_name) ;;
       format <- liftL (getitem conf "format") ;;
       datefmt <- liftL (getitem conf "datefmt") ;;
       fun handlers =>
         (Return {| level := level; format := format; datefmt := datefmt;
                    filemode := filemode; handlers := handlers |},
          handlers)) []
  end.

End Property.

(** The keys the property reads in the section "logging". *)
Definition keys_read : list string :=
  ["stream"; "filename"; "filemode"; "level"; "format"; "datefmt"].

End logconf.

(** ** More of the small installation *)

Module more_examples.
Import Py PosixPath configobj manager engine props examples logconf.

(** A config whose template is given under the home directory. *)
Definition under_home : dict :=
  [("input", VSection [("template", VLeaf (LStr "~/maps/sky.fits"))])].

(** A config that asks for computed frequencies and leaves start unset. *)
Definition calc_unset : dict :=
  [("frequency",
    VSection [("type", VLeaf (LStr "calc"));
              ("frequencies", VLeaf (LList []));
              ("start", VLeaf LNone); ("stop", num 10 1); ("step", num 0 1)])].

(** Configs on which rounding shows: a stop just below one step, the
    decimals 0.3 and 0.1, and a stop exactly three steps from start. *)
Definition calc_below_one : dict := calc 0 0x1.fffffffffffffp-1 1.
Definition calc_tenths : dict := calc 0 0.3 0.1.
Definition calc_three_steps : dict :=
  calc (-0x1p-52) 0x1.8000000000001p+1 0x1.0000000000001p+0.


(** The manager built with two configs given to the constructor. *)
Definition two_configs : list infile :=
  [Lines ["[frequency]"; "type = calc"]; Lines ["# nothing"]].

Definition init_two : @state pkg_ex :=
  match __init__ (pkg := pkg_ex) ["00-general.conf.spec"] spec_ex two_configs [] with
  | Ok st => st
  | Raise _ => manager_ex [] None
  end.

(** An interpreter with the standard streams, the usual levels, and one
    log file that cannot be opened. *)
Definition py_ex : Interpreter :=
  {| sys_hasattr := fun name =>
       String.eqb name "stdout" || String.eqb name "stderr";
     logging_hasattr := fun name =>
       String.eqb name "DEBUG" || String.eqb name "INFO"
       || String.eqb name "WARNING" || String.eqb name "ERROR";
     open_logfile := fun logfile _ =>
       if String.eqb logfile "/proc/run.log"
       then Some (OSError "Permission denied")
       else None |}.

(** A section "logging" with the given stream, file name and level. *)
Definition logging_section (stream logfile level : string) : dict :=
  [("logging",
    VSection [("level", VLeaf (LStr level));
              ("format", VLeaf (LStr "%(levelname)s: %(message)s"));
              ("datefmt", VLeaf (LStr "%H:%M:%S"));
              ("stream", VLeaf (LStr stream));
              ("filename", VLeaf (LStr logfile));
              ("filemode", VLeaf (LStr "a"))])].

End more_examples.
(** ** Properties of the built-ins *)

Section Builtins.
Import Py PosixPath.

Lemma split_without_sep (sep : ascii) (k : string) :
  contains sep k = false -> split sep k = [k].
Proof.
  induction k as [|c k IH]; simpl; intros H; [reflexivity|].
  apply orb_false_iff in H. destruct H as [Hc Hk].
  rewrite Hc, (IH Hk). reflexivity.
Qed.

Lemma split_app_sep (sep : ascii) (k rest : string) :
  contains sep k = false ->
  split sep (k ++ String sep rest) = k :: split sep rest.
Proof.
  induction k as [|c k IH]; simpl; intros H.
  - rewrite Ascii.eqb_refl. reflexivity.
  - apply orb_false_iff in H. destruct H as [Hc Hk].
    rewrite Hc, (IH Hk). reflexivity.
Qed.

(** Splitting a joined key list gives the keys back, provided there is at
    least one key and no key contains the separator. *)
Lemma split_join (sep : ascii) (ks : list string) :
  ks <> [] ->
  Forall (fun k => contains sep k = false) ks ->
  split sep (Py.join (String sep "") ks) = ks.
Proof.
  intros Hne Hall. induction Hall as [|k ks Hk Hall IH]; [congruence|].
  destruct ks as [|k' ks'].
  - simpl. apply split_without_sep, Hk.
  - change (Py.join (String sep "") (k :: k' :: ks'))
      with (k ++ String sep (Py.join (String sep "") (k' :: ks'))).
    rewrite (split_app_sep _ _ _ Hk), IH; [reflexivity | discriminate].
Qed.

Lemma reduce_leaf (x : leaf) (ks : list string) :
  ks <> [] -> reduce dict_get_unbound ks (VLeaf x) = Raise TypeError.
Proof. destruct ks; [congruence | reflexivity]. Qed.

Lemma reduce_broken (pre suf : list string) (v : value) :
  suf <> [] ->
  match props.lookup v pre with Some (VSection _) => False | _ => True end ->
  reduce dict_get_unbound (pre ++ suf) v = Raise TypeError.
Proof.
  intros Hsuf. revert v. induction pre as [|k pre IH]; intros v H.
  - simpl in *. destruct v as [x|d]; [|contradiction].
    apply reduce_leaf, Hsuf.
  - destruct v as [x|d]; [reflexivity|].
    simpl in *. destruct (dict_get d k) as [v'|].
    + apply IH, H.
    + apply reduce_leaf. intros E. apply app_eq_nil in E. destruct E. contradiction.
Qed.

Lemma isabs_inv (p : string) :
  isabs p = true -> exists rest, p = String "/"%char rest.
Proof.
  destruct p as [|c p]; [discriminate|].
  unfold isabs. cbn [startswith]. intros H.
  destruct (Ascii.eqb_spec c "/"%char) as [->|]; [|discriminate].
  eexists. reflexivity.
Qed.

Lemma isabs_normpath (p : string) : isabs p = true -> isabs (normpath p) = true.
Proof.
  intros H. destruct (isabs_inv p H) as [rest ->].
  unfold normpath. cbn [startswith Ascii.eqb Bool.eqb andb].
  destruct (_ && _); reflexivity.
Qed.

Lemma isabs_app (a b : string) : isabs a = true -> isabs (a ++ b) = true.
Proof. intros H. destruct (isabs_inv a H) as [rest ->]. reflexivity. Qed.

Lemma isabs_abspath (env : Environ) (p : string) :
  isabs (getcwd env) = true -> isabs (abspath env p) = true.
Proof.
  intros Hcwd. unfold abspath. apply isabs_normpath.
  destruct (isabs p) eqn:Hp; [exact Hp|].
  unfold PosixPath.join. fold (isabs p). rewrite Hp.
  destruct (isabs_inv _ Hcwd) as [rest E]. rewrite E.
  destruct (endswith _ _); reflexivity.
Qed.

Lemma expanduser_isabs (env : Environ) (p : string) :
  isabs p = true -> expanduser env p = p.
Proof. intros H. destruct (isabs_inv p H) as [rest ->]. reflexivity. Qed.

End Builtins.

(** ** Properties of the manager that hold for any [configobj] package *)

Section ManagerProperties.
Import Py PosixPath configobj manager props.
Context {pkg : Package}.

(** *** Reading configurations *)

Lemma read_config_eq (config : infile) (st : state) :
  read_config config st =
  match ConfigObj config with
  | Raise (ConfigObjError e) => (Raise (ConfigError e), st)
  | Raise e => (Raise e, st)
  | Ok raw =>
      match _validate (_configspec (self st)) raw with
      | Raise e => (Raise e, st)
      | Ok newconfig => (Ok tt, merged_state config newconfig st)
      end
  end.
Proof.
  unfold read_config, bind, get_self, raise, lift, set_self, log, merged_state.
  destruct (ConfigObj config) as [raw|[]]; reflexivity.
Qed.

Lemma read_config_raise (config : infile) (st st' : state) (e : exn) :
  read_config config st = (Raise e, st') -> st' = st.
Proof.
  rewrite read_config_eq.
  destruct (ConfigObj config) as [raw|[]]; try congruence.
  destruct (_validate _ raw); congruence.
Qed.

Lemma _validate_fails (spec : configspec) (raw : dict) :
  validation_fails spec raw ->
  exists msg, _validate spec raw = Raise (ConfigError msg).
Proof.
  unfold _validate. intros [config [errors ->]]. eexists. reflexivity.
Qed.

Lemma read_config_fails (config : infile) (st : state) :
  load_fails (_configspec (self st)) config ->
  exists msg, read_config config st = (Raise (ConfigError msg), st).
Proof.
  rewrite read_config_eq. intros [[e ->]|[raw [-> Hv]]].
  - eexists. reflexivity.
  - destruct (_validate_fails _ _ Hv) as [msg ->]. eexists. reflexivity.
Qed.

Lemma read_userconfig_eq (sys : System) (filename : string) (st : state) :
  read_userconfig sys filename st =
  match userconfig (self st) with
  | Some loaded =>
      (Raise (ConfigError ("User configuration already loaded from "
                           ++ dquote ++ loaded ++ dquote)), st)
  | None =>
      match open_read sys filename with
      | None =>
          (Raise (ConfigError ("Cannot read config from "
                               ++ dquote ++ filename ++ dquote)), st)
      | Some content =>
          match ConfigObj (Lines (split newline content)) with
          | Raise (ConfigObjError e) => (Raise (ConfigError e), st)
          | Raise e => (Raise e, st)
          | Ok raw =>
              match _validate (_configspec (self st)) raw with
              | Raise e => (Raise e, st)
              | Ok newconfig =>
                  (Ok tt, userconfig_state sys filename content newconfig st)
              end
          end
      end
  end.
Proof.
  unfold read_userconfig, bind at 1, get_self at 1.
  destruct (userconfig (self st)); [reflexivity|].
  destruct (open_read sys filename) as [content|]; [|reflexivity].
  unfold bind at 1. rewrite read_config_eq.
  destruct (ConfigObj _) as [raw|[]]; try reflexivity.
  destruct (_validate _ raw); reflexivity.
Qed.

Lemma read_userconfig_raise (sys : System) (filename : string) (st st' : state)
  (e : exn) :
  read_userconfig sys filename st = (Raise e, st') -> st' = st.
Proof.
  rewrite read_userconfig_eq.
  destruct (userconfig (self st)); [congruence|].
  destruct (open_read sys filename) as [content|]; [|congruence].
  destruct (ConfigObj _) as [raw|[]]; try congruence.
  destruct (_validate _ raw); congruence.
Qed.

(** C2. When parsing or validation of an input source fails, [read_config]
    raises [ConfigError] and leaves the whole state of the manager (merged
    config, recorded path, log) as it was, and so does [read_userconfig]
    called on a file with that contents; whatever they raise, the two
    methods leave the state as it was. *)
Theorem failed_read_changes_nothing (sys : System) (st : state)
  (config : infile) :
  (load_fails (_configspec (self st)) config ->
   (exists msg, read_config config st = (Raise (ConfigError msg), st)) /\
   (forall filename content,
      open_read sys filename = Some content ->
      config = Lines (split newline content) ->
      exists msg, read_userconfig sys filename st = (Raise (ConfigError msg), st))) /\
  (forall e st', read_config config st = (Raise e, st') -> st' = st) /\
  (forall filename e st',
     read_userconfig sys filename st = (Raise e, st') -> st' = st).
Proof.
  split; [|split].
  - intros Hfail. split; [apply read_config_fails, Hfail|].
    intros filename content Hopen ->.
    rewrite read_userconfig_eq, Hopen.
    destruct (userconfig (self st)); [eexists; reflexivity|].
    destruct Hfail as [[e ->]|[raw [-> Hv]]].
    + eexists. reflexivity.
    + destruct (_validate_fails _ _ Hv) as [msg ->]. eexists. reflexivity.
  - intros e st'. apply read_config_raise.
  - intros filename e st'. apply read_userconfig_raise.
Qed.

(** C3. Once [read_userconfig] has succeeded, the absolute path of the file
    is recorded, and a second call, then or in any later state that still
    has the path, raises [ConfigError] and leaves the state (merged config
    and recorded path included) as it found it. *)
Theorem read_userconfig_only_once (sys sys' : System) (filename filename' : string)
  (st0 st1 : state) :
  read_userconfig sys filename st0 = (Ok tt, st1) ->
  userconfig (self st1) = Some (abspath (environ sys) filename) /\
  (exists msg,
     read_userconfig sys' filename' st1 = (Raise (ConfigError msg), st1)) /\
  (forall st,
     userconfig (self st) = userconfig (self st1) ->
     exists msg,
       read_userconfig sys' filename' st = (Raise (ConfigError msg), st)).
Proof.
  rewrite read_userconfig_eq.
  destruct (userconfig (self st0)); [discriminate|].
  destruct (open_read sys filename) as [content|]; [|discriminate].
  destruct (ConfigObj _) as [raw|[]]; try discriminate.
  destruct (_validate _ raw) as [newconfig|]; [|discriminate].
  intros [= <-]. split; [reflexivity|].
  assert (H : forall st,
            userconfig (self st)
            = userconfig (self (userconfig_state sys filename content newconfig st0)) ->
            exists msg,
              read_userconfig sys' filename' st = (Raise (ConfigError msg), st)).
  { intros st Hst. rewrite read_userconfig_eq, Hst. simpl. eexists. reflexivity. }
  split; [apply H; reflexivity|exact H].
Qed.

(** C10. A [read_userconfig] that fails on a manager without a recorded
    path changes nothing, so the path stays unset (for a file that cannot be
    read the error is a [ConfigError]); a later call on a readable file
    whose contents parse and validate succeeds, merges the layer and records
    the path made absolute (absolute indeed, the current directory being
    so). *)
Theorem failed_read_userconfig_keeps_unset (sys sys' : System)
  (filename filename' content : string) (st st' : state) (e : exn)
  (raw newconfig : dict) :
  userconfig (self st) = None ->
  read_userconfig sys filename st = (Raise e, st') ->
  open_read sys' filename' = Some content ->
  ConfigObj (Lines (split newline content)) = Ok raw ->
  validate (_configspec (self st)) raw = Ok (newconfig, True_) ->
  isabs (getcwd (environ sys')) = true ->
  st' = st /\ userconfig (self st') = None /\
  (open_read sys filename = None -> is_ConfigError e = true) /\
  exists st'',
    read_userconfig sys' filename' st' = (Ok tt, st'') /\
    _config (self st'') = merge (_config (self st)) newconfig /\
    userconfig (self st'') = Some (abspath (environ sys') filename') /\
    isabs (abspath (environ sys') filename') = true.
Proof.
  intros Hunset Hfail Hopen Hparse Hvalid Hcwd.
  pose proof (read_userconfig_raise _ _ _ _ _ Hfail) as E. subst st'.
  split; [reflexivity|]. split; [exact Hunset|]. split.
  - intros Hnone. rewrite read_userconfig_eq, Hunset, Hnone in Hfail.
    injection Hfail as <-. reflexivity.
  - exists (userconfig_state sys' filename' content newconfig st).
    rewrite read_userconfig_eq, Hunset, Hopen, Hparse.
    unfold _validate. rewrite Hvalid.
    repeat split. apply isabs_abspath, Hcwd.
Qed.

(** *** Nested access *)

Lemma getn_eq (keys : keys_arg) (sep : ascii) (st : state) :
  getn keys sep st =
  (reduce dict_get_unbound (key_list keys sep) (VSection (_config (self st))), st).
Proof. destruct keys; reflexivity. Qed.

(** C7. [getn] gives the same result for a list of keys and for the string
    that joins them with the separator, whenever there is at least one key
    and no key contains the separator. *)
Theorem getn_joined_string (st : state) (sep : ascii) (ks : list string) :
  ks <> [] ->
  Forall (fun k => contains sep k = false) ks ->
  getn (KStr (Py.join (String sep "") ks)) sep st = getn (KList ks) sep st.
Proof.
  intros Hne Hks. rewrite !getn_eq. simpl.
  rewrite (split_join sep ks Hne Hks). reflexivity.
Qed.

(** C8 (amended). When an intermediate level of the key path is absent or is
    not a section, [getn] raises [TypeError], the error of [dict.get]
    applied to something that is not a [dict]. *)
Theorem getn_broken_path (st : state) (keys : keys_arg) (sep : ascii) :
  broken_path (_config (self st)) (key_list keys sep) ->
  getn keys sep st = (Raise TypeError, st).
Proof.
  intros (pre & suf & E & _ & Hsuf & H).
  rewrite getn_eq, E. f_equal. apply reduce_broken; assumption.
Qed.

(** *** Paths *)

(** C9. [get_path] on an entry that holds a string: if the string, with a
    leading home-directory marker expanded, is absolute it is returned (an
    absolute entry is returned unchanged); if it is relative and a user
    config is recorded it is joined onto the directory of that file; if it
    is relative and none is recorded it is returned as it is, a warning is
    logged and nothing is raised. *)
Theorem get_path_cases (sys : System) (st : state) (keys : keys_arg) (v : string) :
  fst (getn keys "/" st) = Ok (VLeaf (LStr v)) ->
  let path := expanduser (environ sys) v in
  (isabs v = true -> get_path sys keys st = (Ok v, st)) /\
  (isabs path = true -> get_path sys keys st = (Ok path, st)) /\
  (isabs path = false ->
   forall uc, userconfig (self st) = Some uc ->
   get_path sys keys st = (Ok (PosixPath.join (dirname uc) path), st)) /\
  (isabs path = false ->
   userconfig (self st) = None ->
   get_path sys keys st =
   (Ok path, {| self := self st;
                logger := logger st ++ [cannot_convert path] |})).
Proof.
  intros Hget path. rewrite getn_eq in Hget. simpl in Hget.
  assert (E : forall b, isabs path = b ->
            get_path sys keys st =
            (if negb b then
               match userconfig (self st) with
               | Some uc => (Ok (PosixPath.join (dirname uc) path), st)
               | None => (Ok path, {| self := self st;
                                      logger := logger st ++ [cannot_convert path] |})
               end
             else (Ok path, st))).
  { intros b Hb. unfold get_path, bind at 1. rewrite getn_eq, Hget.
    unfold bind at 1, lift at 1, expanduser_value. fold path. rewrite Hb.
    destruct b; [reflexivity|]. simpl.
    unfold bind, get_self. destruct (userconfig (self st)); reflexivity. }
  repeat split.
  - intros Habs. unfold path in *. rewrite (expanduser_isabs _ _ Habs) in E.
    apply (E true Habs).
  - intros Habs. apply (E true Habs).
  - intros Hrel uc Huc. rewrite (E false Hrel), Huc. reflexivity.
  - intros Hrel Hnone. rewrite (E false Hrel), Hnone. reflexivity.
Qed.

End ManagerProperties.

(** ** The frequencies *)

Section Frequencies.
Import Py configobj manager props.
Context {pkg : Package}.

Local Open Scope Z_scope.

Lemma arith_numbers (op : float -> float -> result float) (x y : value)
  (a b : float) :
  as_number x = Some a -> as_number y = Some b -> arith op x y = op a b.
Proof. intros Ha Hb. unfold arith. rewrite Ha, Hb. reflexivity. Qed.

Lemma as_number_number (f : float) : as_number (number f) = Some f.
Proof. reflexivity. Qed.

(** *** The indices of the list are converted without overflow *)

Lemma digits2_pos_bound (m : positive) : Zpos m < 2 ^ Zpos (digits2_pos m).
Proof.
  induction m as [m IH|m IH|]; cbn [digits2_pos].
  - rewrite Pos2Z.inj_succ, Z.pow_succ_r by lia. lia.
  - rewrite Pos2Z.inj_succ, Z.pow_succ_r by lia. lia.
  - reflexivity.
Qed.

(** The mantissa and the exponent of a binary64 value: 53 bits at most, an
    exponent of 971 at most. *)
Lemma bounded_mantissa (m : positive) (e : Z) :
  bounded prec emax m e = true -> Zpos m < 2 ^ 53 /\ e <= 971.
Proof.
  unfold bounded, canonical_mantissa, fexp, SpecFloat.emin, prec, emax.
  intros H. apply andb_prop in H. destruct H as [Hc He].
  apply Z.eqb_eq in Hc. apply Z.leb_le in He.
  split; [|lia].
  apply Z.lt_le_trans with (2 ^ Zpos (digits2_pos m));
    [apply digits2_pos_bound|].
  apply Z.pow_le_mono_r; lia.
Qed.

Lemma shiftl_bound (m : positive) (e : Z) :
  Zpos m < 2 ^ 53 -> 0 <= e <= 971 ->
  Z.shiftl (Zpos m) e < overflow_bound.
Proof.
  intros Hm He. rewrite Z.shiftl_mul_pow2 by lia.
  assert (Hpow : 2 ^ e <= 2 ^ 971) by (apply Z.pow_le_mono_r; lia).
  assert (Hpos : 0 < 2 ^ e) by (apply Z.pow_pos_nonneg; lia).
  apply Z.le_lt_trans with ((2 ^ 53 - 1) * 2 ^ 971); [|reflexivity].
  apply Z.le_trans with ((2 ^ 53 - 1) * 2 ^ e).
  - apply Z.mul_le_mono_nonneg_r; lia.
  - apply Z.mul_le_mono_nonneg_l; [|exact Hpow]. vm_compute. discriminate.
Qed.

Lemma shiftr_bound (m p : positive) :
  Zpos m < 2 ^ 53 -> 0 <= Z.shiftr (Zpos m) (Zpos p) < overflow_bound.
Proof.
  intros Hm. rewrite Z.shiftr_div_pow2 by lia.
  assert (Hpos : 0 < 2 ^ Zpos p) by (apply Z.pow_pos_nonneg; lia).
  split; [apply Z.div_pos; lia|].
  apply Z.le_lt_trans with (Zpos m).
  - apply Z.div_le_upper_bound; [exact Hpos|]. nia.
  - apply Z.lt_trans with (2 ^ 53); [exact Hm|reflexivity].
Qed.

(** The [int] of a float is below the bound from which the conversion back
    overflows. *)
Lemma int_below_overflow (f : float) (n : Z) :
  int f = Ok n -> Z.abs n < overflow_bound.
Proof.
  unfold int. pose proof (Prim2SF_valid f) as Hvalid.
  destruct (Prim2SF f) as [s|s| |s m e]; try discriminate.
  - intros [= <-]. reflexivity.
  - intros [= <-]. cbn [valid_binary] in Hvalid.
    destruct (bounded_mantissa m e Hvalid) as [Hm He].
    assert (H : 0 <= match e with
                     | Zneg p => Z.shiftr (Zpos m) (Zpos p)
                     | _ => Z.shiftl (Zpos m) e
                     end < overflow_bound).
    { destruct e as [|p|p].
      - split; [cbn; lia|]. apply shiftl_bound; [exact Hm|lia].
      - split; [apply Z.shiftl_nonneg; lia|]. apply shiftl_bound; [exact Hm|lia].
      - apply shiftr_bound, Hm. }
    destruct s; cbn [cond_Zopp]; lia.
Qed.

Lemma float_of_int_nearest (i : Z) :
  Z.abs i < overflow_bound -> float_of_int i = Ok (nearest i).
Proof.
  intros H. unfold float_of_int. apply Z.ltb_lt in H. rewrite H. reflexivity.
Qed.

Lemma comprehension_numbers (start step : value) (a b : float) (zs : list Z) :
  as_number start = Some a ->
  as_number step = Some b ->
  Forall (fun i => Z.abs i < overflow_bound) zs ->
  comprehension (fun i => match mul_int step i with
                          | Ok p => add start (number p)
                          | Raise e => Raise e
                          end) zs
  = Ok (map (fun i => (a + b * nearest i)%float) zs).
Proof.
  intros Ha Hb Hzs. induction Hzs as [|z zs Hz Hzs IH]; [reflexivity|].
  cbn [comprehension map]. rewrite IH.
  unfold mul_int, arith_int. rewrite Hb, (float_of_int_nearest z Hz).
  unfold add. rewrite (arith_numbers _ _ _ _ _ Ha (as_number_number _)).
  reflexivity.
Qed.

Lemma range_below (n : Z) :
  n < overflow_bound -> Forall (fun i => Z.abs i < overflow_bound) (range n).
Proof.
  intros Hn. unfold range. apply Forall_forall. intros i Hi.
  apply in_map_iff in Hi. destruct Hi as [k [<- Hk]].
  apply in_seq in Hk. lia.
Qed.

Lemma range_map {A : Type} (f : Z -> A) (n : Z) :
  map f (range n) = map (fun i : nat => f (Z.of_nat i)) (seq 0 (Z.to_nat n)).
Proof. unfold range. apply map_map. Qed.

(** *** The body of the property *)

Lemma bind_getn {A : Type} (keys : keys_arg) (sep : ascii) (k : value -> M A)
  (st : state) :
  bind (getn keys sep) k st =
  match reduce dict_get_unbound (key_list keys sep) (VSection (_config (self st))) with
  | Ok v => k v st
  | Raise e => (Raise e, st)
  end.
Proof. unfold bind. rewrite getn_eq. reflexivity. Qed.

Lemma frequencies_eq (st : state) :
  frequencies st =
  let g k := reduce dict_get_unbound (split "/" k) (VSection (_config (self st))) in
  match g "frequency/type" with
  | Raise e => (Raise e, st)
  | Ok type =>
      if eq_str type "custom" then (g "frequency/frequencies", st)
      else
        match g "frequency/start" with
        | Raise e => (Raise e, st)
        | Ok start =>
        match g "frequency/stop" with
        | Raise e => (Raise e, st)
        | Ok stop =>
        match g "frequency/step" with
        | Raise e => (Raise e, st)
        | Ok step =>
        match sub stop start with
        | Raise e => (Raise e, st)
        | Ok d =>
        match truediv (number d) step with
        | Raise e => (Raise e, st)
        | Ok q =>
        match add_int (number q) 1 with
        | Raise e => (Raise e, st)
        | Ok q1 =>
        match int q1 with
        | Raise e => (Raise e, st)
        | Ok num =>
        match comprehension
                (fun i => match mul_int step i with
                          | Ok p => add start (number p)
                          | Raise e => Raise e
                          end) (range num) with
        | Raise e => (Raise e, st)
        | Ok fs => (Ok (VLeaf (LList (map LNum fs))), st)
        end end end end end end end end
  end.
Proof.
  unfold frequencies. cbv zeta.
  repeat (rewrite bind_getn; cbn [key_list];
          match goal with
          | |- context [reduce dict_get_unbound ?ks ?v] =>
              destruct (reduce dict_get_unbound ks v); [|reflexivity]
          end;
          try match goal with
              | |- context [eq_str ?t ?s] =>
                  destruct (eq_str t s);
                  [rewrite getn_eq; reflexivity|]
              end).
  unfold bind, lift, ret.
  repeat match goal with
         | |- context [match ?r with Ok _ => _ | Raise _ => _ end] =>
             destruct r; try reflexivity
         end.
Qed.

Lemma getn_fst (keys : keys_arg) (sep : ascii) (st : state) (r : result value) :
  fst (getn keys sep st) = r ->
  reduce dict_get_unbound (key_list keys sep) (VSection (_config (self st))) = r.
Proof. rewrite getn_eq. exact (fun H => H). Qed.

(** What [frequencies] does once its entries are read as numbers with a
    step that is not zero. *)
Lemma frequencies_numbers (st : state) (type vstart vstop vstep : value)
  (start stop step : float) :
  fst (getn (KStr "frequency/type") "/" st) = Ok type ->
  eq_str type "custom" = false ->
  fst (getn (KStr "frequency/start") "/" st) = Ok vstart ->
  fst (getn (KStr "frequency/stop") "/" st) = Ok vstop ->
  fst (getn (KStr "frequency/step") "/" st) = Ok vstep ->
  as_number vstart = Some start ->
  as_number vstop = Some stop ->
  as_number vstep = Some step ->
  PrimFloat.eqb step 0 = false ->
  frequencies st =
  match int ((stop - start) / step + 1)%float with
  | Raise e => (Raise e, st)
  | Ok n =>
      (Ok (VLeaf (LList (map (fun i : nat =>
                                LNum (start + step * nearest (Z.of_nat i))%float)
                           (seq 0 (Z.to_nat n))))), st)
  end.
Proof.
  intros Htype Hcalc Hstart Hstop Hstep Ha Hb Hs Hnz.
  apply getn_fst in Htype, Hstart, Hstop, Hstep. cbn [key_list] in *.
  rewrite frequencies_eq. cbv beta zeta.
  rewrite Htype, Hcalc, Hstart, Hstop, Hstep.
  unfold sub. rewrite (arith_numbers _ _ _ _ _ Hb Ha).
  unfold truediv. rewrite (arith_numbers _ _ _ _ _ (as_number_number _) Hs).
  rewrite Hnz.
  unfold add_int, arith_int. rewrite as_number_number.
  change (float_of_int 1) with (Ok 1%float). cbv beta iota.
  destruct (int ((stop - start) / step + 1)%float) as [n|e] eqn:Hint;
    [|reflexivity].
  assert (Hn : n < overflow_bound) by (apply int_below_overflow in Hint; lia).
  rewrite (comprehension_numbers vstart vstep start step _ Ha Hs (range_below n Hn)).
  rewrite map_map, range_map. reflexivity.
Qed.

(** C5 (amended). The property [frequencies]: with type "custom" it is
    whatever the entry frequency/frequencies holds; otherwise, for floats
    start, stop and a step that is not zero, it is the list of the
    [start + step * i] for [i] from 0 up to but not including
    [n = int((stop - start) / step + 1)], every operation rounded as floats
    are: [n] elements, none when [n] is not positive; where that sum is a nan
    or an infinity, [int] raises [ValueError] or [OverflowError]. *)
Theorem frequencies_value (st : state) :
  (forall type,
     fst (getn (KStr "frequency/type") "/" st) = Ok type ->
     eq_str type "custom" = true ->
     frequencies st = getn (KStr "frequency/frequencies") "/" st) /\
  (forall type vstart vstop vstep (start stop step : float),
     fst (getn (KStr "frequency/type") "/" st) = Ok type ->
     eq_str type "custom" = false ->
     fst (getn (KStr "frequency/start") "/" st) = Ok vstart ->
     fst (getn (KStr "frequency/stop") "/" st) = Ok vstop ->
     fst (getn (KStr "frequency/step") "/" st) = Ok vstep ->
     as_number vstart = Some start ->
     as_number vstop = Some stop ->
     as_number vstep = Some step ->
     PrimFloat.eqb step 0 = false ->
     let total := ((stop - start) / step + 1)%float in
     (forall n : Z,
        int total = Ok n ->
        let sequence :=
          map (fun i : nat => LNum (start + step * nearest (Z.of_nat i))%float)
            (seq 0 (Z.to_nat n)) in
        frequencies st = (Ok (VLeaf (LList sequence)), st) /\
        (0 <= n -> Z.of_nat (length sequence) = n) /\
        (n <= 0 -> sequence = [])) /\
     (forall e, int total = Raise e -> frequencies st = (Raise e, st))).
Proof.
  split.
  - intros type Htype Hcustom. apply getn_fst in Htype.
    rewrite frequencies_eq. cbv beta zeta. cbn [key_list] in Htype.
    rewrite Htype, Hcustom. rewrite getn_eq. reflexivity.
  - intros type vstart vstop vstep start stop step
      Htype Hcalc Hstart Hstop Hstep Ha Hb Hs Hnz total.
    pose proof (frequencies_numbers st type vstart vstop vstep start stop step
                  Htype Hcalc Hstart Hstop Hstep Ha Hb Hs Hnz) as E.
    fold total in E. split.
    + intros n Hn sequence. rewrite Hn in E. split; [exact E|]. split.
      * intros Hpos. unfold sequence. rewrite length_map, length_seq. lia.
      * intros Hneg. unfold sequence.
        replace (Z.to_nat n) with 0%nat by lia. reflexivity.
    + intros e He. rewrite He in E. exact E.
Qed.

(** C6 (amended). With a type other than "custom", numbers for start and
    stop and a step equal to 0, [frequencies] raises [ZeroDivisionError]:
    it fails, without looping and without changing the state. *)
Theorem frequencies_zero_step (st : state) (type vstart vstop vstep : value)
  (start stop step : float) :
  fst (getn (KStr "frequency/type") "/" st) = Ok type ->
  eq_str type "custom" = false ->
  fst (getn (KStr "frequency/start") "/" st) = Ok vstart ->
  fst (getn (KStr "frequency/stop") "/" st) = Ok vstop ->
  fst (getn (KStr "frequency/step") "/" st) = Ok vstep ->
  as_number vstart = Some start ->
  as_number vstop = Some stop ->
  as_number vstep = Some step ->
  PrimFloat.eqb step 0 = true ->
  frequencies st = (Raise ZeroDivisionError, st).
Proof.
  intros Htype Hcalc Hstart Hstop Hstep Ha Hb Hs Hzero.
  apply getn_fst in Htype, Hstart, Hstop, Hstep. cbn [key_list] in *.
  rewrite frequencies_eq. cbv beta zeta.
  rewrite Htype, Hcalc, Hstart, Hstop, Hstep.
  unfold sub. rewrite (arith_numbers _ _ _ _ _ Hb Ha).
  unfold truediv. rewrite (arith_numbers _ _ _ _ _ (as_number_number _) Hs).
  rewrite Hzero. reflexivity.
Qed.

End Frequencies.

(** ** The report of a failed validation, and the validation of an empty config *)

Section Dictionaries.
Import Py.

Lemma dict_get_set_same (d : dict) (k : string) (v : value) :
  dict_get (dict_set d k v) k = Some v.
Proof.
  induction d as [|[k' v'] d IH]; simpl.
  - rewrite String.eqb_refl. reflexivity.
  - destruct (String.eqb k' k) eqn:E; simpl.
    + rewrite String.eqb_refl. reflexivity.
    + rewrite E. exact IH.
Qed.

Lemma dict_get_set_other (d : dict) (k k' : string) (v : value) :
  k <> k' -> dict_get (dict_set d k v) k' = dict_get d k'.
Proof.
  intros Hne. induction d as [|[k0 v0] d IH]; simpl.
  - destruct (String.eqb_spec k k'); [contradiction|reflexivity].
  - destruct (String.eqb_spec k0 k) as [->|Hk0]; simpl.
    + destruct (String.eqb_spec k k'); [contradiction|reflexivity].
    + destruct (String.eqb_spec k0 k'); [reflexivity|exact IH].
Qed.

Lemma dict_get_fold_other {A : Type} (name : A -> string) (val : dict -> A -> option value)
  (l : list A) (d : dict) (k : string) :
  ~ In k (map name l) ->
  dict_get (fold_left (fun c a => match val c a with
                                  | Some v => dict_set c (name a) v
                                  | None => c
                                  end) l d) k
  = dict_get d k.
Proof.
  revert d. induction l as [|a l IH]; intros d Hk; [reflexivity|].
  simpl in *. rewrite IH by tauto.
  destruct (val d a); [|reflexivity].
  apply dict_get_set_other. intros E. apply Hk. left. exact E.
Qed.

Lemma dict_get_fold_in {A : Type} (name : A -> string) (val : A -> option value)
  (l : list A) (d : dict) (a : A) (v : value) :
  NoDup (map name l) -> In a l -> val a = Some v ->
  dict_get (fold_left (fun c a => match val a with
                                  | Some v => dict_set c (name a) v
                                  | None => c
                                  end) l d) (name a)
  = Some v.
Proof.
  revert d. induction l as [|b l IH]; intros d Hnd Hin Hv; [contradiction|].
  simpl in *. inversion Hnd as [|? ? Hb Hnd']; subst.
  destruct Hin as [->|Hin].
  - rewrite (dict_get_fold_other name (fun _ => val)) by exact Hb.
    rewrite Hv. apply dict_get_set_same.
  - apply IH; assumption.
Qed.

End Dictionaries.

Section Report.
Import Py configobj manager props.

Lemma append_empty (a : string) : a ++ "" = a.
Proof. induction a as [|c a IH]; [reflexivity|]. simpl. rewrite IH. reflexivity. Qed.

Lemma append_associative (a b c : string) : (a ++ b) ++ c = a ++ (b ++ c).
Proof. induction a as [|x a IH]; [reflexivity|]. simpl. rewrite IH. reflexivity. Qed.

Lemma join_empty_cons (x : string) (xs : list string) :
  Py.join "" (x :: xs) = x ++ Py.join "" xs.
Proof. destruct xs; [symmetry; apply append_empty|reflexivity]. Qed.

(** The report of [_validate] is made of one line per violation. *)
Lemma error_msg_lines (errors : list violation) :
  error_msg errors = Py.join "" (map line errors).
Proof.
  unfold error_msg.
  assert (H : forall acc,
            fold_left (fun acc v => acc ++ render v ++ String newline "") errors acc
            = acc ++ Py.join "" (map line errors)).
  { induction errors as [|v errors IH]; intros acc.
    - simpl. symmetry. apply append_empty.
    - cbn [fold_left map]. rewrite IH, join_empty_cons, append_associative.
      reflexivity. }
  apply (H "").
Qed.

End Report.

Section EmptyConfig.
Import Py configobj manager engine props defaults.
Local Open Scope list_scope.

Section Clears.
Variable clears : bool.

Local Abbreviation validate := (defaults.validate clears).
Local Abbreviation out_sections := (props.out_sections clears).
Local Abbreviation validated_section := (props.validated_section clears).
Local Abbreviation ret_false_of := (props.ret_false_of clears).
Local Abbreviation returned := (props.returned clears).

(** Induction over specifications, with the hypothesis for every
    subsection. *)
Lemma spec_induction (P : spec -> Prop) :
  (forall scalars sections,
     Forall (fun ks => P (snd ks)) sections -> P (Spec scalars sections)) ->
  forall s, P s.
Proof.
  intros H. fix IH 1. intros [scalars sections]. apply H.
  induction sections as [|[name sub] sections IHs]; constructor.
  - apply IH.
  - exact IHs.
Qed.

(** *** The loops of [validate] *)

Lemma entries_loop (scalars : list (string * check)) :
  forall (section : dict) (out : list (string * entry)) (ret_true ret_false : bool),
    fold_left (fun (acc : dict * list (string * entry) * bool * bool)
                   (kc : string * check) =>
                 let '(section, out, ret_true, ret_false) := acc in
                 if reserved (fst kc) then acc
                 else match check_missing (snd kc) with
                      | Missing =>
                          (section, out ++ [(fst kc, EFalse)], false, ret_false)
                      | Failed reason =>
                          (section, out ++ [(fst kc, EError reason)], false, false)
                      | Passed x =>
                          (dict_set section (fst kc) (VLeaf x),
                           out ++ [(fst kc, ETrue)], ret_true, false)
                      end)
      scalars (section, out, ret_true, ret_false)
    = (fold_left (fun c kc => match default_value kc with
                              | Some v => dict_set c (fst kc) v
                              | None => c
                              end) scalars section,
       out ++ out_entries scalars,
       ret_true && forallb (fun ke => passed (snd ke)) (out_entries scalars),
       ret_false && forallb (fun ke => missing (snd ke)) (out_entries scalars)).
Proof.
  induction scalars as [|[k c] scalars IH]; intros section out ret_true ret_false.
  - cbn. rewrite app_nil_r, !andb_true_r. reflexivity.
  - cbn [fold_left fst snd]. unfold out_entries, default_value in *.
    cbn [flat_map fst snd].
    destruct (reserved k); [apply IH|].
    destruct (check_missing c) as [|reason|x]; rewrite IH; cbn [app entry_of];
      rewrite <- app_assoc; cbn [app forallb passed missing fst snd];
      rewrite ?andb_false_r, ?andb_true_r, ?andb_false_l, ?andb_true_l;
      reflexivity.
Qed.

Lemma sections_loop (top : bool) (sections : list (string * spec)) :
  forall (section : dict) (out : list (string * outcome)) (ret_true ret_false : bool),
    fold_left (fun (acc : dict * list (string * outcome) * bool * bool)
                   (ks : string * spec) =>
                 let '(section, out, ret_true, ret_false) := acc in
                 if String.eqb (fst ks) "__many__"
                    || (top && String.eqb (fst ks) "DEFAULT") then acc
                 else
                   let '(sub, check) := validate false (snd ks) in
                   (dict_set section (fst ks) (VSection sub),
                    out ++ [(fst ks, check)],
                    match check with OTrue => ret_true | _ => false end,
                    match check with
                    | OTrue => false
                    | OFalse => ret_false
                    | ODict _ _ => if clears then false else ret_false
                    end))
      sections (section, out, ret_true, ret_false)
    = (fold_left (fun c ks => match validated_section top ks with
                              | Some v => dict_set c (fst ks) v
                              | None => c
                              end) sections section,
       out ++ out_sections top sections,
       ret_true && forallb (fun kr => is_true (snd kr)) (out_sections top sections),
       ret_false
       && forallb (fun kr => keeps_false clears (snd kr))
            (out_sections top sections)).
Proof.
  induction sections as [|[name sub] sections IH];
    intros section out ret_true ret_false.
  - cbn. rewrite app_nil_r, !andb_true_r. reflexivity.
  - cbn [fold_left fst snd].
    unfold props.out_sections, props.validated_section, skipped in *.
    cbn [flat_map fst snd].
    destruct (String.eqb name "__many__" || (top && String.eqb name "DEFAULT"));
      [apply IH|].
    destruct (validate false sub) as [validated check].
    rewrite IH. cbn [app fst snd]. rewrite <- app_assoc. cbn [app forallb fst snd].
    destruct check; cbn [is_true keeps_false]; case clears; cbn [negb];
      rewrite ?andb_false_r, ?andb_true_r, ?andb_false_l, ?andb_true_l;
      reflexivity.
Qed.

Lemma create_loop (sections : list (string * spec)) (d : dict) :
  fold_left (fun (section : dict) (ks : string * spec) =>
               if String.eqb (fst ks) "__many__" then section
               else dict_set section (fst ks) (VSection []))
    sections d
  = fold_left (fun c ks => match created_section ks with
                           | Some v => dict_set c (fst ks) v
                           | None => c
                           end) sections d.
Proof.
  revert d. induction sections as [|[name sub] sections IH]; intros d;
    [reflexivity|].
  cbn [fold_left fst]. unfold created_section at 2. cbn [fst].
  destruct (String.eqb name "__many__"); apply IH.
Qed.

(** What [validate] returns, loop by loop. *)
Lemma validate_eq (top : bool) (scalars : list (string * check))
  (sections : list (string * spec)) :
  validate top (Spec scalars sections)
  = (fold_left (fun c ks => match validated_section top ks with
                            | Some v => dict_set c (fst ks) v
                            | None => c
                            end) sections
       (fold_left (fun c kc => match default_value kc with
                               | Some v => dict_set c (fst kc) v
                               | None => c
                               end) scalars
          (fold_left (fun c ks => match created_section ks with
                                  | Some v => dict_set c (fst ks) v
                                  | None => c
                                  end) sections [])),
     returned top (out_entries scalars) (out_sections top sections)).
Proof.
  cbn [validate]. rewrite create_loop, entries_loop.
  cbn [app andb]. rewrite sections_loop. cbn [app].
  unfold props.returned, ret_true_of, props.ret_false_of. reflexivity.
Qed.

(** *** Sorting keeps the triples *)

Lemma in_insert (v x : violation) (l : list violation) :
  In v (insert x l) <-> v = x \/ In v l.
Proof.
  induction l as [|w l IH]; cbn [insert].
  - cbn. intuition.
  - destruct (before w x); cbn [In]; [rewrite IH|]; intuition.
Qed.

Lemma in_sorted (v : violation) (l : list violation) :
  In v (sorted l) <-> In v l.
Proof.
  unfold sorted.
  assert (H : forall acc, In v (fold_left (fun acc v => insert v acc) l acc)
                          <-> In v acc \/ In v l).
  { induction l as [|x l IH]; intros acc; cbn [fold_left In].
    - intuition.
    - rewrite IH, in_insert. intuition. }
  rewrite H. cbn. intuition.
Qed.

Lemma length_insert (x : violation) (l : list violation) :
  length (insert x l) = Datatypes.S (length l).
Proof.
  induction l as [|w l IH]; [reflexivity|].
  cbn [insert]. destruct (before w x); cbn [length]; [rewrite IH|]; reflexivity.
Qed.

(** *** The report of an empty config *)

Lemma in_out_entries (scalars : list (string * check)) (k : string) (c : check) :
  In (k, c) scalars -> reserved k = false ->
  In (k, entry_of (check_missing c)) (out_entries scalars).
Proof.
  intros Hin Hres. unfold out_entries. apply in_flat_map.
  exists (k, c). split; [exact Hin|]. cbn [fst snd]. rewrite Hres. left. reflexivity.
Qed.

Lemma in_out_sections (top : bool) (sections : list (string * spec))
  (name : string) (sub : spec) :
  In (name, sub) sections -> skipped top name = false ->
  In (name, snd (validate false sub)) (out_sections top sections).
Proof.
  intros Hin Hskip. unfold props.out_sections. apply in_flat_map.
  exists (name, sub). split; [exact Hin|]. cbn [fst snd]. rewrite Hskip.
  left. reflexivity.
Qed.

Lemma forallb_false {A : Type} (p : A -> bool) (l : list A) (a : A) :
  In a l -> p a = false -> forallb p l = false.
Proof.
  intros Hin Hp. destruct (forallb p l) eqn:E; [|reflexivity].
  rewrite forallb_forall in E. rewrite (E a Hin) in Hp. discriminate.
Qed.

(** What is returned for a section in which an item of [out] is not
    [True]: [False], or [out]. *)
Lemma returned_not_true (top : bool) (entries : list (string * entry))
  (subsections : list (string * outcome)) :
  ret_true_of entries subsections = false ->
  returned top entries subsections = OFalse \/
  returned top entries subsections = ODict entries subsections.
Proof.
  intros H. unfold props.returned. rewrite H.
  destruct (if top then false else ret_false_of entries subsections);
    [|right; destruct entries, subsections; reflexivity].
  left. destruct entries, subsections; reflexivity.
Qed.

Lemma returned_top (entries : list (string * entry))
  (subsections : list (string * outcome)) :
  returned true entries subsections <> OFalse.
Proof.
  unfold props.returned. cbn [andb].
  destruct (ret_true_of entries subsections); discriminate.
Qed.

Lemma declared_in (top : bool) (scalars : list (string * check))
  (sections : list (string * spec)) (p : list string) (k : string) (c : check) :
  In (p, k, c) (declared top (Spec scalars sections)) ->
  (p = [] /\ In (k, c) scalars /\ reserved k = false) \/
  (exists name sub p',
     p = name :: p' /\ In (name, sub) sections /\ skipped top name = false /\
     In (p', k, c) (declared false sub)).
Proof.
  cbn [declared]. intros H. apply in_app_or in H. destruct H as [H|H].
  - left. apply in_flat_map in H. destruct H as [[k0 c0] [Hin H]].
    cbn [fst snd] in H. destruct (reserved k0) eqn:Hres; [contradiction|].
    destruct H as [[= <- <- <-]|[]]. auto.
  - right. apply in_flat_map in H. destruct H as [[name sub] [Hin H]].
    cbn [fst snd] in H. fold (skipped top name) in H.
    destruct (skipped top name) eqn:Hskip; [contradiction|].
    apply in_map_iff in H. destruct H as [[[p' k'] c'] [[= <- <- <-] Hd]].
    exists name, sub, p'. auto.
Qed.

(** Every declared entry without a default is reported: by its own
    missing-key triple, or by the missing-section triple of its section or
    of a section above it. *)
Lemma missing_reported (s : spec) :
  forall (top : bool) (levels p : list string) (k : string) (c : check),
    In (p, k, c) (declared top s) ->
    check_default c = None ->
    snd (validate top s) <> OTrue /\
    (In (levels ++ p, Some k, False_) (flatten (snd (validate top s)) levels) \/
     exists q, leads_to q p /\
               (snd (validate top s) <> OFalse -> q <> []) /\
               In (levels ++ q, None, False_)
                 (flatten (snd (validate top s)) levels)).
Proof.
  induction s as [scalars sections IH] using spec_induction.
  intros top levels p k c Hin Hdef. rewrite validate_eq. cbn [snd].
  set (oe := out_entries scalars). set (os := out_sections top sections).
  assert (Hfalse : returned top oe os = OFalse ->
            exists q, leads_to q p /\
                      (returned top oe os <> OFalse -> q <> []) /\
                      In (levels ++ q, None, False_)
                        (flatten (returned top oe os) levels)).
  { intros E. exists []. split; [exists p; reflexivity|].
    split; [intros Hne; contradiction|].
    rewrite E, app_nil_r. left. reflexivity. }
  apply declared_in in Hin.
  destruct Hin as [(-> & Hin & Hres)|(name & sub & p' & -> & Hin & Hskip & Hd)].
  - pose proof (in_out_entries scalars k c Hin Hres) as Hout.
    unfold check_missing in Hout. rewrite Hdef in Hout. cbn [entry_of] in Hout.
    assert (Hrt : ret_true_of oe os = false).
    { unfold ret_true_of.
      rewrite (forallb_false _ oe (k, EFalse) Hout eq_refl). reflexivity. }
    destruct (returned_not_true top oe os Hrt) as [E|E].
    + split; [rewrite E; discriminate|]. right. apply Hfalse, E.
    + split; [rewrite E; discriminate|]. left. rewrite E, app_nil_r.
      cbn [flatten]. apply in_or_app. left. apply in_flat_map.
      exists (k, EFalse). split; [exact Hout|]. left. reflexivity.
  - pose proof (in_out_sections top sections name sub Hin Hskip) as Hout.
    rewrite Forall_forall in IH.
    destruct (IH (name, sub) Hin false (levels ++ [name]) p' k c Hd Hdef)
      as [Hnt Hsub]. cbn [snd] in Hnt, Hsub.
    assert (Hrt : ret_true_of oe os = false).
    { unfold ret_true_of.
      rewrite (forallb_false (fun kr => is_true (snd kr)) os
                 (name, snd (validate false sub)) Hout).
      - apply andb_false_r.
      - cbn [snd]. destruct (snd (validate false sub)); [contradiction| |];
          reflexivity. }
    destruct (returned_not_true top oe os Hrt) as [E|E].
    + split; [rewrite E; discriminate|]. right. apply Hfalse, E.
    + split; [rewrite E; discriminate|]. rewrite E. cbn [flatten].
      assert (Hflat : forall v,
                In v (flatten (snd (validate false sub)) (levels ++ [name])) ->
                In v (flat_map (fun ke : string * entry =>
                                  match snd ke with
                                  | ETrue => []
                                  | EFalse => [(levels, Some (fst ke), False_)]
                                  | EError reason =>
                                      [(levels, Some (fst ke), Error reason)]
                                  end) oe
                      ++ flat_map (fun kr : string * outcome =>
                                     flatten (snd kr) (levels ++ [fst kr])) os)).
      { intros v Hv. apply in_or_app. right. apply in_flat_map.
        exists (name, snd (validate false sub)). split; [exact Hout|exact Hv]. }
      destruct Hsub as [Hkey|(q & [r Hr] & _ & Hq)].
      * left. apply Hflat. rewrite <- app_assoc in Hkey. exact Hkey.
      * right. exists (name :: q). split; [exists r; rewrite Hr; reflexivity|].
        split; [discriminate|]. apply Hflat. rewrite <- app_assoc in Hq. exact Hq.
Qed.

(** Conversely a missing-key triple is that of a declared entry without a
    default. *)
Lemma reported_missing (s : spec) :
  forall (top : bool) (levels section_list : list string) (k : string),
    In (section_list, Some k, False_) (flatten (snd (validate top s)) levels) ->
    exists p c,
      section_list = levels ++ p /\ In (p, k, c) (declared top s) /\
      check_default c = None.
Proof.
  induction s as [scalars sections IH] using spec_induction.
  intros top levels section_list k. rewrite validate_eq. cbn [snd].
  unfold props.returned.
  destruct ((if top then false
             else ret_false_of (out_entries scalars) (out_sections top sections))
            && match out_entries scalars, out_sections top sections with
               | [], [] => false
               | _, _ => true
               end);
    [intros [[=]|[]]|].
  destruct (ret_true_of (out_entries scalars) (out_sections top sections));
    [intros []|].
  destruct (if top then false
            else ret_false_of (out_entries scalars) (out_sections top sections));
    [intros [[=]|[]]|].
  cbn [flatten declared]. intros H. apply in_app_or in H. destruct H as [H|H].
  - apply in_flat_map in H. destruct H as [[k0 e] [Hin H]]. cbn [fst snd] in H.
    unfold out_entries in Hin. apply in_flat_map in Hin.
    destruct Hin as [[k1 c] [Hin1 Hin]]. cbn [fst snd] in Hin.
    destruct (reserved k1) eqn:Hres; [contradiction|].
    destruct Hin as [[= <- <-]|[]].
    unfold check_missing in H.
    destruct (check_default c) as [d|] eqn:Hdef.
    + exfalso. destruct d; try (destruct (check_value c _));
        cbn [entry_of] in H; destruct H as [[=]|[]] || contradiction.
    + cbn [entry_of] in H. destruct H as [[= <- <-]|[]].
      exists [], c. split; [symmetry; apply app_nil_r|]. split; [|exact Hdef].
      apply in_or_app. left. apply in_flat_map. exists (k1, c).
      split; [exact Hin1|]. cbn [fst snd]. rewrite Hres. left. reflexivity.
  - apply in_flat_map in H. destruct H as [[name r] [Hin H]]. cbn [fst snd] in H.
    unfold props.out_sections in Hin. apply in_flat_map in Hin.
    destruct Hin as [[name1 sub] [Hin1 Hin]]. cbn [fst snd] in Hin.
    destruct (skipped top name1) eqn:Hskip; [contradiction|].
    destruct Hin as [[= <- <-]|[]].
    rewrite Forall_forall in IH.
    destruct (IH (name1, sub) Hin1 false (levels ++ [name1]) section_list k H)
      as (p & c & -> & Hd & Hdef).
    exists (name1 :: p), c. split; [rewrite <- app_assoc; reflexivity|].
    split; [|exact Hdef].
    apply in_or_app. right. apply in_flat_map. exists (name1, sub).
    split; [exact Hin1|]. cbn [fst snd]. fold (skipped top name1). rewrite Hskip.
    apply in_map_iff. exists (p, k, c). split; [reflexivity|exact Hd].
Qed.

(** A section for which [validate] does not return [True] has a triple in
    the report. *)
Lemma not_true_reported (s : spec) :
  forall (top : bool) (levels : list string),
    snd (validate top s) <> OTrue ->
    flatten (snd (validate top s)) levels <> [].
Proof.
  induction s as [scalars sections IH] using spec_induction.
  intros top levels. rewrite validate_eq. cbn [snd].
  set (oe := out_entries scalars). set (os := out_sections top sections).
  unfold props.returned.
  destruct ((if top then false else ret_false_of oe os)
            && match oe, os with [], [] => false | _, _ => true end);
    [discriminate|].
  destruct (ret_true_of oe os) eqn:Hrt; [contradiction|].
  destruct (if top then false else ret_false_of oe os); [discriminate|].
  intros _. cbn [flatten]. unfold ret_true_of in Hrt.
  apply andb_false_iff in Hrt. destruct Hrt as [Hrt|Hrt].
  - assert (H : exists ke, In ke oe /\ passed (snd ke) = false).
    { clear - Hrt. induction oe as [|ke oe IHo]; [discriminate|].
      cbn [forallb] in Hrt. apply andb_false_iff in Hrt.
      destruct Hrt as [Hrt|Hrt].
      - exists ke. split; [left; reflexivity|exact Hrt].
      - destruct (IHo Hrt) as [ke' [Hin Hp]]. exists ke'. split; [right|]; assumption. }
    destruct H as [[k e] [Hin Hp]]. cbn [snd] in Hp.
    intros E. apply app_eq_nil in E. destruct E as [E _].
    assert (Hne : In (levels, Some k,
                      match e with EError reason => Error reason | _ => False_ end)
                    (flat_map (fun ke : string * entry =>
                                 match snd ke with
                                 | ETrue => []
                                 | EFalse => [(levels, Some (fst ke), False_)]
                                 | EError reason =>
                                     [(levels, Some (fst ke), Error reason)]
                                 end) oe)).
    { apply in_flat_map. exists (k, e). split; [exact Hin|].
      cbn [fst snd]. destruct e; [discriminate| |]; left; reflexivity. }
    rewrite E in Hne. exact Hne.
  - assert (H : exists kr, In kr os /\ is_true (snd kr) = false).
    { clear - Hrt. induction os as [|kr os IHo]; [discriminate|].
      cbn [forallb] in Hrt. apply andb_false_iff in Hrt.
      destruct Hrt as [Hrt|Hrt].
      - exists kr. split; [left; reflexivity|exact Hrt].
      - destruct (IHo Hrt) as [kr' [Hin Hp]]. exists kr'. split; [right|]; assumption. }
    destruct H as [[name r] [Hin Hp]]. cbn [snd] in Hp.
    unfold os, props.out_sections in Hin. apply in_flat_map in Hin.
    destruct Hin as [[name1 sub] [Hin1 Hin]]. cbn [fst snd] in Hin.
    destruct (skipped top name1) eqn:Hskip; [contradiction|].
    destruct Hin as [[= <- <-]|[]].
    rewrite Forall_forall in IH.
    assert (Hnt : snd (validate false sub) <> OTrue).
    { intros E. rewrite E in Hp. discriminate. }
    pose proof (IH (name1, sub) Hin1 false (levels ++ [name1]) Hnt) as Hsub.
    cbn [snd] in Hsub.
    intros E. apply app_eq_nil in E. destruct E as [_ E].
    destruct (flatten (snd (validate false sub)) (levels ++ [name1]))
      as [|v l] eqn:Hfl; [contradiction|].
    assert (Hne : In v (flat_map (fun kr : string * outcome =>
                                    flatten (snd kr) (levels ++ [fst kr])) os)).
    { apply in_flat_map. exists (name1, snd (validate false sub)). split.
      - apply in_out_sections; assumption.
      - cbn [fst snd]. rewrite Hfl. left. reflexivity. }
    rewrite E in Hne. exact Hne.
Qed.

Lemma distinct_names_sub (scalars : list (string * check))
  (sections : list (string * spec)) (name : string) (sub : spec) :
  distinct_names (Spec scalars sections) -> In (name, sub) sections ->
  distinct_names sub.
Proof.
  intros [_ Hall] Hin. induction sections as [|ks sections IH]; [contradiction|].
  destruct Hall as [Hks Hall]. destruct Hin as [->|Hin]; [exact Hks|].
  apply IH; assumption.
Qed.

(** The default of every declared entry that has one passing its check is
    in the config that validation leaves. *)
Lemma defaults_set (s : spec) :
  forall (top : bool) (p : list string) (k : string) (c : check) (x : leaf),
    distinct_names s ->
    In (p, k, c) (declared top s) ->
    check_missing c = Passed x ->
    field_at (fst (validate top s)) (p ++ [k]) = Some x.
Proof.
  induction s as [scalars sections IH] using spec_induction.
  intros top p k c x Hdist Hin Hpass. rewrite validate_eq. cbn [fst].
  pose proof Hdist as [Hnd _].
  apply declared_in in Hin.
  destruct Hin as [(-> & Hin & Hres)|(name & sub & p' & -> & Hin & Hskip & Hd)].
  - unfold field_at. cbn [app lookup].
    rewrite (dict_get_fold_other fst (fun _ ks => validated_section top ks)).
    + rewrite (dict_get_fold_in fst default_value scalars _ (k, c) (VLeaf x)).
      * reflexivity.
      * apply NoDup_app_remove_r in Hnd. exact Hnd.
      * exact Hin.
      * unfold default_value. cbn [fst snd]. rewrite Hres, Hpass. reflexivity.
    + intros Hk. apply (in_map fst) in Hin. cbn [fst] in Hin.
      clear - Hnd Hin Hk. induction (map fst scalars) as [|a l IHl]; [contradiction|].
      cbn [app] in Hnd. inversion Hnd as [|? ? Ha Hnd']; subst.
      destruct Hin as [->|Hin]; [|apply IHl; assumption].
      apply Ha. apply in_or_app. right. exact Hk.
  - unfold field_at. cbn [app lookup].
    rewrite (dict_get_fold_in fst (validated_section top) sections _ (name, sub)
               (VSection (fst (validate false sub)))).
    + rewrite Forall_forall in IH.
      apply (IH (name, sub) Hin false p' k c x);
        [eapply distinct_names_sub; eassumption|exact Hd|exact Hpass].
    + apply NoDup_app_remove_l in Hnd. exact Hnd.
    + exact Hin.
    + unfold props.validated_section. cbn [fst snd]. rewrite Hskip. reflexivity.
Qed.

(** *** Every violation is reported once *)

Lemma outcome_induction (P : outcome -> Prop) :
  P OTrue -> P OFalse ->
  (forall entries subsections,
     Forall (fun kr => P (snd kr)) subsections ->
     P (ODict entries subsections)) ->
  forall r, P r.
Proof.
  intros HT HF HD. fix IH 1. intros [| |entries subsections];
    [exact HT|exact HF|].
  apply HD. induction subsections as [|[name r] subsections IHs]; constructor.
  - apply IH.
  - exact IHs.
Qed.

Lemma distinct_out_sub (entries : list (string * entry))
  (subsections : list (string * outcome)) (name : string) (r : outcome) :
  distinct_out (ODict entries subsections) -> In (name, r) subsections ->
  distinct_out r.
Proof.
  intros (_ & _ & Hall) Hin.
  induction subsections as [|kr subsections IH]; [contradiction|].
  destruct Hall as [Hkr Hall]. destruct Hin as [->|Hin]; [exact Hkr|].
  apply IH; assumption.
Qed.

Lemma value_of_name {A B : Type} (l : list (A * B)) (a : A) (b1 b2 : B) :
  NoDup (map fst l) -> In (a, b1) l -> In (a, b2) l -> b1 = b2.
Proof.
  induction l as [|[a' b'] l IH]; [contradiction|].
  cbn [map fst]. intros Hnd H1 H2. inversion Hnd as [|? ? Ha Hnd']; subst.
  destruct H1 as [E1|H1], H2 as [E2|H2].
  - congruence.
  - exfalso. apply Ha. apply (in_map fst) in H2. cbn [fst] in H2. congruence.
  - exfalso. apply Ha. apply (in_map fst) in H1. cbn [fst] in H1. congruence.
  - apply IH; assumption.
Qed.

Lemma not_below_itself {A : Type} (l q : list A) (a : A) : l <> l ++ a :: q.
Proof.
  intros E. rewrite <- (app_nil_r l) in E at 1. apply app_inv_head in E.
  discriminate.
Qed.

(** The triples of a section have section lists that begin with the list
    of the section. *)
Lemma flatten_below (r : outcome) :
  forall (levels : list string) (v : violation),
    In v (flatten r levels) -> leads_to levels (fst (fst v)).
Proof.
  induction r as [| |entries subsections IH] using outcome_induction;
    intros levels v; cbn [flatten].
  - intros [].
  - intros [<-|[]]. exists []. symmetry. apply app_nil_r.
  - intros H. apply in_app_or in H. destruct H as [H|H].
    + apply in_flat_map in H. destruct H as [[k e] [_ H]]. cbn [fst snd] in H.
      destruct e; [contradiction| |]; destruct H as [<-|[]]; exists [];
        symmetry; apply app_nil_r.
    + apply in_flat_map in H. destruct H as [[name r] [Hin H]].
      cbn [fst snd] in H. rewrite Forall_forall in IH.
      destruct (IH (name, r) Hin _ _ H) as [q Hq].
      exists (name :: q). rewrite Hq, <- app_assoc. reflexivity.
Qed.

Lemma NoDup_flat_map_keyed {A B K : Type} (key : A -> K) (f : A -> list B)
  (owner : B -> K -> Prop) (l : list A) :
  NoDup (map key l) ->
  (forall a, In a l -> NoDup (f a)) ->
  (forall a b, In a l -> In b (f a) -> owner b (key a)) ->
  (forall b k1 k2, owner b k1 -> owner b k2 -> k1 = k2) ->
  NoDup (flat_map f l).
Proof.
  intros Hnd Hf Hown Huniq. induction l as [|a l IH]; [constructor|].
  cbn [flat_map map] in *. inversion Hnd as [|? ? Ha Hnd']; subst.
  apply NoDup_app.
  - apply Hf. left. reflexivity.
  - apply IH; [exact Hnd'| |].
    + intros a' Hin. apply Hf. right. exact Hin.
    + intros a' b Hin Hb. apply Hown; [right|]; assumption.
  - intros b Hb Hb'. apply in_flat_map in Hb'. destruct Hb' as [a' [Hin' Hb']].
    apply Ha. rewrite (Huniq b (key a) (key a')).
    + apply in_map. exact Hin'.
    + apply Hown; [left; reflexivity|exact Hb].
    + apply Hown; [right; exact Hin'|exact Hb'].
Qed.

(** No triple is listed twice. *)
Lemma flatten_once (r : outcome) :
  forall levels : list string, distinct_out r -> NoDup (flatten r levels).
Proof.
  induction r as [| |entries subsections IH] using outcome_induction;
    intros levels Hd; cbn [flatten].
  - constructor.
  - constructor; [intros []|constructor].
  - pose proof Hd as (He & Hs & _). apply NoDup_app.
    + apply (NoDup_flat_map_keyed fst _ (fun v k => snd (fst v) = Some k));
        [exact He| | |].
      * intros [k e] _. cbn [fst snd].
        destruct e; repeat constructor; intros [].
      * intros [k e] b _ Hb. cbn [fst snd] in *.
        destruct e; [contradiction| |]; destruct Hb as [<-|[]]; reflexivity.
      * intros b k1 k2 H1 H2. congruence.
    + apply (NoDup_flat_map_keyed fst _
               (fun v name => exists q, fst (fst v) = levels ++ name :: q));
        [exact Hs| | |].
      * intros [name r] Hin. cbn [fst snd]. rewrite Forall_forall in IH.
        apply (IH (name, r) Hin). eapply distinct_out_sub; eassumption.
      * intros [name r] b Hin Hb. cbn [fst snd] in *.
        apply flatten_below in Hb. destruct Hb as [q Hq]. exists q.
        rewrite Hq, <- app_assoc. reflexivity.
      * intros b k1 k2 [q1 H1] [q2 H2]. rewrite H1 in H2.
        apply app_inv_head in H2. congruence.
    + intros v Hv Hv'.
      apply in_flat_map in Hv. destruct Hv as [[k e] [_ Hv]].
      apply in_flat_map in Hv'. destruct Hv' as [[name r] [_ Hv']].
      cbn [fst snd] in *. apply flatten_below in Hv'. destruct Hv' as [q Hq].
      rewrite <- app_assoc in Hq. cbn [app] in Hq.
      destruct e; [contradiction| |]; destruct Hv as [<-|[]]; cbn [fst] in Hq;
        exact (not_below_itself _ _ _ Hq).
Qed.

(** Where the triple that tells of a missing entry stands in the results
    of a section. *)
Lemma reports_in_section (entries : list (string * entry))
  (subsections : list (string * outcome)) (levels p : list string)
  (k : string) (v : violation) :
  In v (flatten (ODict entries subsections) levels) ->
  (v = (levels ++ p, Some k, False_) \/
   exists q, leads_to q p /\ v = (levels ++ q, None, False_)) ->
  (p = [] /\ v = (levels, Some k, False_)) \/
  (exists name r p',
     In (name, r) subsections /\ p = name :: p' /\
     In v (flatten r (levels ++ [name])) /\
     (v = ((levels ++ [name]) ++ p', Some k, False_) \/
      exists q, leads_to q p' /\ v = ((levels ++ [name]) ++ q, None, False_))).
Proof.
  cbn [flatten]. intros Hin Hv. apply in_app_or in Hin. destruct Hin as [Hin|Hin].
  - left. apply in_flat_map in Hin. destruct Hin as [[k' e] [_ Hin]].
    cbn [fst snd] in Hin.
    assert (Hl : fst (fst v) = levels /\ snd (fst v) <> None).
    { destruct e; [contradiction| |]; destruct Hin as [<-|[]]; split;
        try reflexivity; discriminate. }
    destruct Hl as [Hl Hk]. destruct Hv as [->|(q & _ & ->)].
    + cbn [fst] in Hl. rewrite <- (app_nil_r levels) in Hl at 2.
      apply app_inv_head in Hl. subst p. rewrite app_nil_r. auto.
    + exfalso. apply Hk. reflexivity.
  - right. apply in_flat_map in Hin. destruct Hin as [[name r] [Hin Hf]].
    cbn [fst snd] in Hf. pose proof (flatten_below _ _ _ Hf) as [q0 Hq0].
    rewrite <- app_assoc in Hq0. cbn [app] in Hq0.
    destruct Hv as [->|(q & [r' Hr'] & ->)]; cbn [fst] in Hq0;
      apply app_inv_head in Hq0.
    + exists name, r, q0. subst p. repeat split; try assumption.
      left. rewrite <- app_assoc. reflexivity.
    + exists name, r, (q0 ++ r'). subst q p. repeat split; try assumption.
      right. exists q0. split; [exists r'; reflexivity|].
      rewrite <- app_assoc. reflexivity.
Qed.

(** Two triples that tell of the same missing entry are one. *)
Lemma reported_once (r : outcome) :
  forall (levels p : list string) (k : string) (v w : violation),
    distinct_out r ->
    In v (flatten r levels) -> In w (flatten r levels) ->
    (v = (levels ++ p, Some k, False_) \/
     exists q, leads_to q p /\ v = (levels ++ q, None, False_)) ->
    (w = (levels ++ p, Some k, False_) \/
     exists q, leads_to q p /\ w = (levels ++ q, None, False_)) ->
    v = w.
Proof.
  induction r as [| |entries subsections IH] using outcome_induction;
    intros levels p k v w Hd Hv Hw Rv Rw.
  - destruct Hv.
  - destruct Hv as [<-|[]], Hw as [<-|[]]. reflexivity.
  - destruct (reports_in_section _ _ _ _ _ _ Hv Rv)
      as [[Hp ->]|(name & r & p' & Hin & Hp & Hv' & Rv')];
      destruct (reports_in_section _ _ _ _ _ _ Hw Rw)
        as [[Hp2 ->]|(name2 & r2 & p2 & Hin2 & Hp2 & Hw' & Rw')].
    + reflexivity.
    + subst p. discriminate.
    + subst p. discriminate.
    + subst p. injection Hp2 as <- <-.
      pose proof Hd as (_ & Hs & _).
      pose proof (value_of_name _ _ _ _ Hs Hin Hin2) as <-.
      rewrite Forall_forall in IH.
      apply (IH (name, r) Hin (levels ++ [name]) p' k v w);
        try assumption.
      eapply distinct_out_sub; eassumption.
Qed.

Lemma out_entries_names (scalars : list (string * check)) :
  map fst (out_entries scalars)
  = filter (fun k => negb (reserved k)) (map fst scalars).
Proof.
  unfold out_entries. induction scalars as [|[k c] scalars IH]; [reflexivity|].
  cbn [flat_map map filter fst snd]. destruct (reserved k); cbn [negb app map fst].
  - exact IH.
  - rewrite IH. reflexivity.
Qed.

Lemma out_sections_names (top : bool) (sections : list (string * spec)) :
  map fst (out_sections top sections)
  = filter (fun name => negb (skipped top name)) (map fst sections).
Proof.
  unfold props.out_sections.
  induction sections as [|[name sub] sections IH]; [reflexivity|].
  cbn [flat_map map filter fst snd].
  destruct (skipped top name); cbn [negb app map fst].
  - exact IH.
  - rewrite IH. reflexivity.
Qed.

(** With distinct names in the specification no [out] holds a name
    twice. *)
Lemma validate_distinct (s : spec) :
  forall top : bool, distinct_names s -> distinct_out (snd (validate top s)).
Proof.
  induction s as [scalars sections IH] using spec_induction.
  intros top Hdist. rewrite validate_eq. cbn [snd]. unfold props.returned.
  destruct ((if top then false
             else ret_false_of (out_entries scalars) (out_sections top sections))
            && match out_entries scalars, out_sections top sections with
               | [], [] => false
               | _, _ => true
               end); [exact I|].
  destruct (ret_true_of (out_entries scalars) (out_sections top sections));
    [exact I|].
  destruct (if top then false
            else ret_false_of (out_entries scalars) (out_sections top sections));
    [exact I|].
  pose proof Hdist as [Hnd _]. split; [|split].
  - rewrite out_entries_names. apply NoDup_filter.
    apply NoDup_app_remove_r in Hnd. exact Hnd.
  - rewrite out_sections_names. apply NoDup_filter.
    apply NoDup_app_remove_l in Hnd. exact Hnd.
  - assert (Hall : forall kr, In kr (out_sections top sections) ->
                              distinct_out (snd kr)).
    { intros kr Hin. unfold props.out_sections in Hin.
      apply in_flat_map in Hin. destruct Hin as [[name sub] [Hin Hkr]].
      cbn [fst snd] in Hkr. destruct (skipped top name); [contradiction|].
      destruct Hkr as [<-|[]]. cbn [snd]. rewrite Forall_forall in IH.
      apply (IH (name, sub) Hin false).
      eapply distinct_names_sub; eassumption. }
    induction (out_sections top sections) as [|kr os IHos]; [exact I|].
    split.
    + apply Hall. left. reflexivity.
    + apply IHos. intros kr' Hin. apply Hall. right. exact Hin.
Qed.

Lemma NoDup_insert (x : violation) (l : list violation) :
  NoDup l -> ~ In x l -> NoDup (insert x l).
Proof.
  induction l as [|w l IH]; intros Hnd Hx; cbn [insert].
  - constructor; [intros []|constructor].
  - destruct (before w x); [|constructor; assumption].
    inversion Hnd as [|? ? Hw Hnd']; subst. constructor.
    + rewrite in_insert. intros [->|H]; [apply Hx; left; reflexivity|].
      contradiction.
    + apply IH; [exact Hnd'|]. intros H. apply Hx. right. exact H.
Qed.

Lemma NoDup_sorted (l : list violation) : NoDup l -> NoDup (sorted l).
Proof.
  unfold sorted.
  assert (H : forall acc, NoDup acc -> NoDup l ->
                          (forall x, In x l -> ~ In x acc) ->
                          NoDup (fold_left (fun acc v => insert v acc) l acc)).
  { induction l as [|a l IH]; intros acc Ha Hl Hd; cbn [fold_left];
      [exact Ha|].
    inversion Hl as [|? ? Hal Hl']; subst. apply IH.
    - apply NoDup_insert; [exact Ha|]. apply Hd. left. reflexivity.
    - exact Hl'.
    - intros x Hx Hin. apply in_insert in Hin. destruct Hin as [->|Hin].
      + contradiction.
      + apply (Hd x); [right|]; assumption. }
  intros Hl. apply H; [constructor|exact Hl|]. intros x _ [].
Qed.

End Clears.

(** The report of [_validate] is made of the lines of the violations, as
    the messages of the module spell them. *)
Lemma error_msg_report (errors : list violation) :
  error_msg errors = Py.join "" (map report_line errors).
Proof.
  rewrite error_msg_lines. f_equal. apply map_ext. intros [[sl [k|]] [|reason]];
    unfold line, render, report_line;
    rewrite <- ?append_associative; cbn [append];
    rewrite ?append_associative; reflexivity.
Qed.


End EmptyConfig.

(** ** The merge engine and the layers merged by [read_config] *)

Section Merging.
Import Py configobj manager engine props.
Local Open Scope list_scope.

(** Induction over values, with the hypothesis for every entry of a
    section. *)
Lemma value_induction (P : value -> Prop) :
  (forall x, P (VLeaf x)) ->
  (forall d, Forall (fun kv => P (snd kv)) d -> P (VSection d)) ->
  forall v, P v.
Proof.
  intros Hleaf Hsec. fix IH 1. intros [x|d]; [apply Hleaf|].
  apply Hsec. induction d as [|[k v] d IHd]; constructor.
  - apply IH.
  - exact IHd.
Qed.

Lemma distinct_keys_section (d : dict) :
  distinct_keys (VSection d) <->
  NoDup (keys d) /\ Forall (fun kv => distinct_keys (snd kv)) d.
Proof.
  cbn [distinct_keys]. apply and_iff_compat_l.
  induction d as [|kv d IH]; [split; constructor|].
  rewrite IH. split.
  - intros [H1 H2]. constructor; assumption.
  - intros H. inversion H; subst. split; assumption.
Qed.

Lemma merge_eq (base overlay : dict) :
  merge base overlay = fold_left merge_entry overlay base.
Proof. reflexivity. Qed.

(** What [merge] leaves under a key: the entry of the overlay (merged
    into the base's when both are sections), else the entry of the base. *)
Lemma merge_get (overlay : dict) :
  forall (base : dict) (k : string),
    NoDup (keys overlay) ->
    dict_get (merge base overlay) k
    = match dict_get overlay k with
      | None => dict_get base k
      | Some v =>
          Some match v, dict_get base k with
               | VSection o', Some (VSection b') => VSection (merge b' o')
               | _, _ => v
               end
      end.
Proof.
  induction overlay as [|[k' v'] overlay IH]; intros base k Hnd; [reflexivity|].
  rewrite merge_eq. cbn [fold_left]. rewrite <- merge_eq.
  inversion Hnd as [|? ? Hk' Hnd']; subst.
  rewrite (IH _ k Hnd'). cbn [dict_get].
  destruct (String.eqb_spec k' k) as [->|Hne].
  - assert (Hnone : dict_get overlay k = None).
    { clear - Hk'. induction overlay as [|[k0 v0] overlay IHo]; [reflexivity|].
      simpl in *. destruct (String.eqb_spec k0 k) as [->|_]; [tauto|].
      apply IHo. tauto. }
    rewrite Hnone. cbn [merge_entry].
    destruct v' as [x|o']; [apply dict_get_set_same|].
    destruct (dict_get base k) as [[xb|b']|]; apply dict_get_set_same.
  - assert (Hother : dict_get (merge_entry base (k', v')) k = dict_get base k).
    { cbn [merge_entry]. destruct v' as [x|o'].
      - apply dict_get_set_other, Hne.
      - destruct (dict_get base k') as [[xb|b']|]; apply dict_get_set_other, Hne. }
    rewrite Hother. reflexivity.
Qed.

(** Whatever the base, a field of the overlay is a field of the merged
    tree, with the overlay's value. *)
Lemma merge_overlay_wins (path : list string) :
  forall (overlay base : dict) (x : leaf),
    distinct_keys (VSection overlay) ->
    field_at overlay path = Some x ->
    field_at (merge base overlay) path = Some x.
Proof.
  induction path as [|k path IH]; intros overlay base x Hdist Hx; [discriminate|].
  apply distinct_keys_section in Hdist. destruct Hdist as [Hnd Hall].
  unfold field_at in *. cbn [lookup] in *.
  rewrite (merge_get overlay base k Hnd).
  destruct (dict_get overlay k) as [v|] eqn:Hk; [|discriminate].
  assert (Hv : distinct_keys v).
  { clear - Hall Hk. induction overlay as [|[k0 v0] overlay IHo]; [discriminate|].
    inversion Hall; subst. simpl in Hk.
    destruct (String.eqb k0 k); [injection Hk as <-; assumption|auto]. }
  destruct v as [y|o']; [exact Hx|].
  destruct (dict_get base k) as [[xb|b']|]; try exact Hx.
  apply (IH o' b' x Hv Hx).
Qed.

Lemma distinct_keys_get (d : dict) (k : string) (v : value) :
  distinct_keys (VSection d) -> dict_get d k = Some v -> distinct_keys v.
Proof.
  intros Hdist Hk. apply distinct_keys_section in Hdist.
  destruct Hdist as [_ Hall].
  induction d as [|[k0 v0] d IH]; [discriminate|].
  inversion Hall; subst. simpl in Hk.
  destruct (String.eqb k0 k); [injection Hk as <-; assumption|auto].
Qed.

Lemma lookup_leaf_below (x : leaf) (k : string) (path : list string) :
  lookup (VLeaf x) (k :: path) = None.
Proof. reflexivity. Qed.

(** A field the overlay does not hold: it is gone from the merged tree when
    the overlay holds an entry on its path (a value above it, or a section
    in its place), and is the field of the base otherwise. *)
Lemma merge_absent (path : list string) :
  forall (overlay base : dict),
    distinct_keys (VSection overlay) ->
    field_at overlay path = None ->
    field_at (merge base overlay) path
    = if entry_on_path overlay path then None else field_at base path.
Proof.
  induction path as [|k path IH]; intros overlay base Hdist Hnone; [reflexivity|].
  pose proof (proj1 (proj1 (distinct_keys_section overlay) Hdist)) as Hnd.
  unfold field_at in *. cbn [lookup entry_on_path] in *.
  rewrite (merge_get overlay base k Hnd).
  destruct (dict_get overlay k) as [v|] eqn:Hk; [|reflexivity].
  pose proof (distinct_keys_get overlay k v Hdist Hk) as Hv.
  destruct v as [y|o'].
  - destruct path as [|k' path]; [discriminate|reflexivity].
  - destruct path as [|k' path].
    + destruct (dict_get base k) as [[xb|b']|]; reflexivity.
    + destruct (dict_get base k) as [[xb|b']|].
      * rewrite Hnone. destruct (entry_on_path o' (k' :: path)); reflexivity.
      * apply (IH o' b' Hv Hnone).
      * rewrite Hnone. destruct (entry_on_path o' (k' :: path)); reflexivity.
Qed.

(** A path on which the tree holds no entry leads to no field of it. *)
Lemma no_entry_no_field (path : list string) :
  forall d : dict, entry_on_path d path = false -> field_at d path = None.
Proof.
  induction path as [|k path IH]; intros d H; [reflexivity|].
  unfold field_at in *. cbn [lookup entry_on_path] in *.
  destruct (dict_get d k) as [[x|d']|]; try reflexivity; try discriminate.
  destruct path as [|k' path]; [discriminate|].
  apply (IH d' H).
Qed.

Section Layers.
Context (S : Type) (parse : infile -> result dict)
  (validate : S -> dict -> result (dict * results)).

Local Abbreviation state := (@manager.state (merging S parse validate)).

(** C1 (amended). Whatever the parser and the validator, when [read_config]
    has merged a validated layer L1 and then a validated layer L2, the merged
    config holds, for every field present in L2, the value from L2.  A field
    absent from L2 has the value the merged config held just before L2 was
    merged unless L2 holds an entry on the path of the field (a value above
    it, or a section in its place): then the field is gone.  So the fields
    of L1 are still there wherever L2 holds no entry on their path. *)
Theorem last_merged_layer_wins (config1 config2 : infile) (st0 st1 st2 : state) :
  read_config config1 st0 = (Ok tt, st1) ->
  read_config config2 st1 = (Ok tt, st2) ->
  exists L1 L2,
    layer (pkg := merging S parse validate) (_configspec (self st0)) config1 = Ok L1 /\
    layer (pkg := merging S parse validate) (_configspec (self st0)) config2 = Ok L2 /\
    (distinct_keys (VSection L2) ->
     forall path,
       (forall x, field_at L2 path = Some x ->
                  field_at (_config (self st2)) path = Some x) /\
       (field_at L2 path = None ->
        field_at (_config (self st2)) path
        = if entry_on_path L2 path then None
          else field_at (_config (self st1)) path) /\
       (distinct_keys (VSection L1) ->
        forall x, field_at L1 path = Some x ->
                  entry_on_path L2 path = false ->
                  field_at (_config (self st2)) path = Some x)).
Proof.
  intros H1 H2.
  rewrite read_config_eq in H1, H2. unfold layer.
  destruct (ConfigObj config1) as [raw1|[]]; try discriminate.
  destruct (_validate (_configspec (self st0)) raw1) as [L1|] eqn:Hv1;
    [|discriminate].
  injection H1 as <-. cbn [merged_state self _configspec] in H2.
  destruct (ConfigObj config2) as [raw2|[]]; try discriminate.
  destruct (_validate (_configspec (self st0)) raw2) as [L2|] eqn:Hv2;
    [|discriminate].
  injection H2 as <-.
  exists L1, L2. split; [reflexivity|]. split; [reflexivity|].
  cbn [merged_state self _config _configspec configobj.merge merging].
  intros Hd2 path. split; [|split].
  - intros x Hx. apply merge_overlay_wins; assumption.
  - intros Hnone. apply merge_absent; assumption.
  - intros Hd1 x Hx Hoff.
    rewrite (merge_absent path L2 _ Hd2 (no_entry_no_field path L2 Hoff)), Hoff.
    apply merge_overlay_wins; assumption.
Qed.

End Layers.

End Merging.

(** ** The properties at work on the small installation *)

Section Witnesses.
Import Py PosixPath configobj manager engine props examples more_examples.

Lemma last_merged_layer_wins_witness :
  let st1 := snd (read_config layer_note_foo init_unspecified) in
  let st2 := snd (read_config layer_bar st1) in
  let st3 := snd (read_config layer_foo st2) in
  field_at (_config (self st2)) ["bar"] = Some (LStr "b") /\
  field_at (_config (self st2)) ["note"] = Some (LStr "a") /\
  field_at (_config (self st2)) ["foo"; "x"] = Some (LStr "1") /\
  field_at (_config (self st3)) ["foo"] = Some (LStr "5") /\
  field_at (_config (self st3)) ["foo"; "x"] = None /\
  field_at (_config (self st3)) ["note"] = Some (LStr "a").
Proof.
  intros st1 st2 st3.
  destruct (last_merged_layer_wins unit parse_layers (fun _ config => Ok (config, True_))
              layer_note_foo layer_bar init_unspecified st1 st2 eq_refl eq_refl)
    as (L1 & L2 & HL1 & HL2 & H12).
  injection HL1 as <-. injection HL2 as <-.
  destruct (last_merged_layer_wins unit parse_layers (fun _ config => Ok (config, True_))
              layer_bar layer_foo st1 st2 st3 eq_refl eq_refl)
    as (L2 & L3 & HL2 & HL3 & H23).
  injection HL2 as <-. injection HL3 as <-.
  assert (Hbar : distinct_keys (VSection [("bar", VLeaf (LStr "b"))])).
  { cbn. repeat split. repeat constructor. intros []. }
  assert (Hfoo : distinct_keys (VSection [("foo", VLeaf (LStr "5"))])).
  { cbn. repeat split. repeat constructor. intros []. }
  assert (Hnote : distinct_keys
                    (VSection [("note", VLeaf (LStr "a"));
                               ("foo", VSection [("x", VLeaf (LStr "1"))])])).
  { cbn. repeat split; repeat constructor; cbn; intuition discriminate. }
  split; [|split; [|split; [|split; [|split]]]].
  - apply (proj1 (H12 Hbar ["bar"])). reflexivity.
  - apply (proj2 (proj2 (H12 Hbar ["note"])) Hnote); reflexivity.
  - apply (proj2 (proj2 (H12 Hbar ["foo"; "x"])) Hnote); reflexivity.
  - apply (proj1 (H23 Hfoo ["foo"])). reflexivity.
  - apply (proj1 (proj2 (H23 Hfoo ["foo"; "x"]))). reflexivity.
  - exact (eq_trans (proj1 (proj2 (H23 Hfoo ["note"])) eq_refl) eq_refl).
Defined.

(** C1: a field absent from the layer merged last does not keep the value
    the merged config held when that layer holds a value in the place of
    the field's section. *)
Lemma merged_value_replaces_section :
  let st1 := snd (read_config layer_note_foo init_unspecified) in
  let st2 := snd (read_config layer_foo st1) in
  read_config layer_note_foo init_unspecified = (Ok tt, st1) /\
  read_config layer_foo st1 = (Ok tt, st2) /\
  layer (pkg := defaults.unspecified parse_layers) tt layer_foo
  = Ok [("foo", VLeaf (LStr "5"))] /\
  field_at [("foo", VLeaf (LStr "5"))] ["foo"; "x"] = None /\
  field_at (_config (self st1)) ["foo"; "x"] = Some (LStr "1") /\
  field_at (_config (self st2)) ["foo"; "x"] = None /\
  field_at (_config (self st2)) ["foo"; "x"]
  <> field_at (_config (self st1)) ["foo"; "x"].
Proof.
  intros st1 st2. repeat split. discriminate.
Qed.



Lemma failed_read_changes_nothing_witness :
  let st := manager_ex calc_1_10_3 None in
  (exists msg, read_config (Lines ["["]) st = (Raise (ConfigError msg), st)) /\
  (exists msg, read_userconfig sys_ex "broken.conf" st = (Raise (ConfigError msg), st)) /\
  (exists msg, read_userconfig sys_ex "wrong.conf" st = (Raise (ConfigError msg), st)) /\
  snd (read_config (Lines ["["]) st) = st /\
  snd (read_userconfig sys_ex "missing.conf" st) = st.
Proof.
  intros st.
  destruct (failed_read_changes_nothing sys_ex st (Lines ["["])) as (H & Hrc & Hru).
  destruct H as [H1 H2]; [left; eexists; reflexivity|].
  destruct (failed_read_changes_nothing sys_ex st
              (Lines ["[input]"; "[[template]]"])) as (H & _ & _).
  destruct H as [_ H3]; [right; eexists; split; [reflexivity|]|].
  { eexists. eexists. vm_compute. reflexivity. }
  split; [exact H1|]. split; [apply (H2 "broken.conf" "["); reflexivity|].
  split; [apply (H3 "wrong.conf" ("[input]" ++ String newline "[[template]]"));
          reflexivity|].
  split.
  - eapply Hrc. reflexivity.
  - eapply (Hru "missing.conf"). reflexivity.
Defined.

Lemma read_userconfig_only_once_witness :
  let st0 := manager_ex calc_1_10_3 None in
  let st1 := snd (read_userconfig sys_ex "user.conf" st0) in
  let st2 := snd (read_config (Lines ["# nothing"]) st1) in
  userconfig (self st1) = Some "/work/user.conf" /\
  (exists msg, read_userconfig sys_ex "broken.conf" st1 = (Raise (ConfigError msg), st1)) /\
  (exists msg, read_userconfig sys_ex "user.conf" st2 = (Raise (ConfigError msg), st2)).
Proof.
  intros st0 st1 st2.
  destruct (read_userconfig_only_once sys_ex sys_ex "user.conf" "broken.conf"
              st0 st1 eq_refl) as (Hpath & Hagain & _).
  destruct (read_userconfig_only_once sys_ex sys_ex "user.conf" "user.conf"
              st0 st1 eq_refl) as (_ & _ & Hlater).
  split; [exact Hpath|]. split; [exact Hagain|].
  apply Hlater. reflexivity.
Defined.

Lemma failed_read_userconfig_keeps_unset_witness :
  let st := manager_ex calc_1_10_3 None in
  userconfig (self st) = None /\
  exists st'',
    read_userconfig sys_ex "user.conf" st = (Ok tt, st'') /\
    userconfig (self st'') = Some "/work/user.conf".
Proof.
  intros st.
  destruct (failed_read_userconfig_keeps_unset sys_ex sys_ex "missing.conf" "user.conf"
              ("[frequency]" ++ String newline "type = calc") st st
              (ConfigError ("Cannot read config from " ++ dquote ++ "missing.conf" ++ dquote))
              [("frequency", VSection [("type", VLeaf (LStr "calc"))])]
              (resolve spec_ex [("frequency", VSection [("type", VLeaf (LStr "calc"))])]))
    as (_ & Hunset & _ & st'' & Hread & _ & Hpath & _); try reflexivity.
  split; [exact Hunset|]. exists st''. split; [exact Hread | exact Hpath].
Defined.

Lemma getn_joined_string_witness :
  let st := manager_ex calc_1_10_3 None in
  getn (KStr "a/b/c") "/" st = getn (KList ["a"; "b"; "c"]) "/" st.
Proof.
  intros st. apply (getn_joined_string st "/" ["a"; "b"; "c"]).
  - discriminate.
  - repeat constructor.
Defined.

Lemma getn_broken_path_witness :
  let st := manager_ex calc_1_10_3 None in
  getn (KStr "frequency/type/unit") "/" st = (Raise TypeError, st).
Proof.
  intros st. apply getn_broken_path.
  exists ["frequency"; "type"], ["unit"].
  repeat split; discriminate.
Defined.

(** C8: [getn] through an entry that is not a section neither raises
    [KeyNotFoundError] nor returns any value. *)
Lemma getn_raises_no_KeyNotFoundError :
  let st := manager_ex calc_1_10_3 None in
  broken_path (_config (self st)) ["frequency"; "type"; "unit"] /\
  fst (getn (KList ["frequency"; "type"; "unit"]) "/" st) <> Raise KeyNotFoundError /\
  forall v, fst (getn (KList ["frequency"; "type"; "unit"]) "/" st) <> Ok v.
Proof.
  intros st. split.
  - exists ["frequency"; "type"], ["unit"].
    repeat split; discriminate.
  - split; [|intros v]; discriminate.
Qed.

Lemma get_path_cases_witness :
  get_path sys_ex (KStr "input/template") (manager_ex calc_step_0 None)
  = (Ok "/data/in.txt", manager_ex calc_step_0 None) /\
  get_path sys_ex (KStr "input/template") (manager_ex calc_1_10_3 (Some "/home/u/cfg.conf"))
  = (Ok "/home/u/data/in.txt", manager_ex calc_1_10_3 (Some "/home/u/cfg.conf")) /\
  get_path sys_ex (KStr "input/template") (manager_ex calc_1_10_3 None)
  = (Ok "data/in.txt",
     {| self := self (manager_ex calc_1_10_3 None);
        logger := [cannot_convert "data/in.txt"] |}).
Proof.
  split; [|split].
  - destruct (get_path_cases sys_ex (manager_ex calc_step_0 None)
                (KStr "input/template") "/data/in.txt" eq_refl) as (H & _).
    exact (H eq_refl).
  - destruct (get_path_cases sys_ex (manager_ex calc_1_10_3 (Some "/home/u/cfg.conf"))
                (KStr "input/template") "data/in.txt" eq_refl) as (_ & _ & H & _).
    exact (H eq_refl "/home/u/cfg.conf" eq_refl).
  - destruct (get_path_cases sys_ex (manager_ex calc_1_10_3 None)
                (KStr "input/template") "data/in.txt" eq_refl) as (_ & _ & _ & H).
    exact (H eq_refl eq_refl).
Defined.

Lemma frequencies_value_witness :
  frequencies (manager_ex custom_list None)
  = (Ok (VLeaf (LList [LNum 2.5; LNum 7.1])), manager_ex custom_list None) /\
  frequencies (manager_ex calc_1_10_3 None)
  = (Ok (VLeaf (LList [LNum 1; LNum 4; LNum 7; LNum 10])),
     manager_ex calc_1_10_3 None) /\
  frequencies (manager_ex (calc infinity infinity 1) None)
  = (Raise ValueError, manager_ex (calc infinity infinity 1) None) /\
  frequencies (manager_ex (calc 0 infinity 1) None)
  = (Raise OverflowError, manager_ex (calc 0 infinity 1) None).
Proof.
  split; [|split; [|split]].
  - destruct (frequencies_value (manager_ex custom_list None)) as [H _].
    rewrite (H (VLeaf (LStr "custom")) eq_refl eq_refl). reflexivity.
  - destruct (frequencies_value (manager_ex calc_1_10_3 None)) as [_ H].
    destruct (H (VLeaf (LStr "calc")) (num 1 1) (num 10 1) (num 3 1) 1%float
                10%float 3%float
                eq_refl eq_refl eq_refl eq_refl eq_refl eq_refl eq_refl eq_refl
                eq_refl) as [Hlist _].
    destruct (Hlist 4%Z eq_refl) as (Hf & _ & _). rewrite Hf. reflexivity.
  - destruct (frequencies_value (manager_ex (calc infinity infinity 1) None)) as [_ H].
    destruct (H (VLeaf (LStr "calc")) (number infinity) (number infinity)
                (number 1) infinity infinity 1%float
                eq_refl eq_refl eq_refl eq_refl eq_refl eq_refl eq_refl eq_refl
                eq_refl) as [_ Hraise].
    apply (Hraise ValueError). reflexivity.
  - destruct (frequencies_value (manager_ex (calc 0 infinity 1) None)) as [_ H].
    destruct (H (VLeaf (LStr "calc")) (number 0) (number infinity) (number 1)
                0%float infinity 1%float
                eq_refl eq_refl eq_refl eq_refl eq_refl eq_refl eq_refl eq_refl
                eq_refl) as [_ Hraise].
    apply (Hraise OverflowError). reflexivity.
Defined.

(** C5: the count is not [floor((stop - start) / step) + 1] and a stop that
    lies a whole number of steps from start is not always in the list.  With
    start 0, stop 0.9999999999999999 and step 1 the list has the two
    elements 0 and 1 where that count is 1; with start -2**-52, step
    1 + 2**-52 and stop 3 + 2**-51, three steps from start, the last of the
    four elements is not stop; with the decimals 0, 0.3 and 0.1 the list is
    0, 0.1, 0.2. *)
Lemma frequencies_rounding :
  frequencies (manager_ex calc_below_one None)
  = (Ok (VLeaf (LList [LNum 0; LNum 1])), manager_ex calc_below_one None) /\
  exact_count 0 0x1.fffffffffffffp-1 1 = 1%Z /\
  frequencies (manager_ex calc_three_steps None)
  = (Ok (VLeaf (LList [LNum (-0x1p-52); LNum 1; LNum 2;
                       LNum 0x1.8000000000002p+1])),
     manager_ex calc_three_steps None) /\
  on_step_boundary (-0x1p-52) 0x1.8000000000001p+1 0x1.0000000000001p+0 3 /\
  exact_count (-0x1p-52) 0x1.8000000000001p+1 0x1.0000000000001p+0 = 4%Z /\
  ~ In (LNum 0x1.8000000000001p+1)
      [LNum (-0x1p-52); LNum 1; LNum 2; LNum 0x1.8000000000002p+1] /\
  frequencies (manager_ex calc_tenths None)
  = (Ok (VLeaf (LList [LNum 0; LNum 0.1; LNum 0.2])),
     manager_ex calc_tenths None).
Proof.
  repeat split.
  intros H. cbn [In] in H.
  assert (Hne : forall f : float,
            PrimFloat.eqb f 0x1.8000000000001p+1 = false ->
            LNum f <> LNum 0x1.8000000000001p+1).
  { intros f Hf [= E]. rewrite E in Hf. discriminate Hf. }
  destruct H as [H|[H|[H|[H|[]]]]]; revert H; apply Hne; reflexivity.
Qed.

Lemma frequencies_zero_step_witness :
  frequencies (manager_ex calc_step_0 None)
  = (Raise ZeroDivisionError, manager_ex calc_step_0 None) /\
  frequencies (manager_ex (calc 1 10 (-0)) None)
  = (Raise ZeroDivisionError, manager_ex (calc 1 10 (-0)) None).
Proof.
  split.
  - apply (frequencies_zero_step (manager_ex calc_step_0 None)
             (VLeaf (LStr "calc")) (num 1 1) (num 10 1) (num 0 1)
             1%float 10%float 0%float); reflexivity.
  - apply (frequencies_zero_step (manager_ex (calc 1 10 (-0)) None)
             (VLeaf (LStr "calc")) (number 1) (number 10) (number (-0))
             1%float 10%float (-0)%float); reflexivity.
Defined.

(** C6: with step 0 the error raised is not [InvalidConfigError]. *)
Lemma frequencies_raises_no_InvalidConfigError :
  let st := manager_ex calc_step_0 None in
  fst (getn (KStr "frequency/step") "/" st) = Ok (num 0 1) /\
  eq_str (VLeaf (LStr "calc")) "custom" = false /\
  fst (getn (KStr "frequency/type") "/" st) = Ok (VLeaf (LStr "calc")) /\
  fst (frequencies st) = Raise ZeroDivisionError /\
  fst (frequencies st) <> Raise InvalidConfigError.
Proof.
  intros st. repeat split. vm_compute. discriminate.
Qed.

End Witnesses.

(** ** Further properties of the manager *)

Section NestedAccess.
Import Py PosixPath configobj manager props more.
Context {pkg : Package}.

Lemma reduce_app (ks1 ks2 : list string) (v : value) :
  reduce dict_get_unbound (ks1 ++ ks2) v
  = match reduce dict_get_unbound ks1 v with
    | Ok v' => reduce dict_get_unbound ks2 v'
    | Raise e => Raise e
    end.
Proof.
  revert v. induction ks1 as [|k ks1 IH]; intros v; [reflexivity|].
  simpl. destruct (dict_get_unbound v k); [apply IH|reflexivity].
Qed.

Lemma reduce_lookup (ks : list string) (v v' : value) :
  lookup v ks = Some v' -> reduce dict_get_unbound ks v = Ok v'.
Proof.
  revert v. induction ks as [|k ks IH]; intros v H.
  - injection H as <-. reflexivity.
  - destruct v as [x|d]; [discriminate|]. simpl in *.
    destruct (dict_get d k) as [v0|]; [apply IH, H|discriminate].
Qed.

(** X1. [getn] returns the value stored at a key path that exists in the
    merged tree, be it an entry or a whole section, whether the keys come as
    a list or as a string to split. *)
Theorem getn_existing_path (st : state) (keys : keys_arg) (sep : ascii)
  (v : value) :
  lookup (VSection (_config (self st))) (key_list keys sep) = Some v ->
  getn keys sep st = (Ok v, st).
Proof.
  intros H. rewrite getn_eq, (reduce_lookup _ _ _ H). reflexivity.
Qed.

(** X2. When every level but the last exists and is a section, and only
    the last key is absent, [getn] raises nothing and returns [None]. *)
Theorem getn_absent_last_key (st : state) (sep : ascii) (pre : list string)
  (k : string) (d : dict) :
  lookup (VSection (_config (self st))) pre = Some (VSection d) ->
  dict_get d k = None ->
  getn (KList (pre ++ [k])) sep st = (Ok None_, st).
Proof.
  intros Hpre Hk. rewrite getn_eq. cbn [key_list].
  rewrite reduce_app, (reduce_lookup _ _ _ Hpre). simpl. rewrite Hk.
  reflexivity.
Qed.

(** X3. Whatever the keys and the tree, [getn] either returns a value or
    raises [TypeError]; it raises nothing else, and it leaves the manager
    as it is. *)
Theorem getn_returns_or_TypeError (st : state) (keys : keys_arg) (sep : ascii) :
  (exists v, getn keys sep st = (Ok v, st)) \/
  getn keys sep st = (Raise TypeError, st).
Proof.
  rewrite getn_eq.
  generalize (VSection (_config (self st))) as v.
  induction (key_list keys sep) as [|k ks IH]; intros v.
  - left. eexists. reflexivity.
  - simpl. destruct v as [x|d]; [right; reflexivity|].
    simpl. destruct (dict_get d k) as [v'|]; apply IH.
Qed.

(** X4. The empty inputs of [getn]: an empty list of keys gives the whole
    merged config, while the empty string is split into one empty key and
    gives the entry of that name, [None] if there is none. *)
Theorem getn_empty_keys (st : state) (sep : ascii) :
  getn (KList []) sep st = (Ok (VSection (_config (self st))), st) /\
  getn (KStr "") sep st
  = (Ok match dict_get (_config (self st)) "" with
        | Some v => v
        | None => None_
        end, st).
Proof.
  rewrite !getn_eq. simpl.
  destruct (dict_get (_config (self st)) ""); split; reflexivity.
Qed.

(** X5. Walking a key path in two steps: when the first keys lead to a
    section, [getn] on the whole path is [getn] of the remaining keys inside
    that section. *)
Theorem getn_through_section (st : state) (sep : ascii) (ks1 ks2 : list string)
  (d : dict) :
  getn (KList ks1) sep st = (Ok (VSection d), st) ->
  fst (getn (KList (ks1 ++ ks2)) sep st)
  = fst (getn (KList ks2) sep (with_config st d)).
Proof.
  rewrite !getn_eq. cbn [key_list fst with_config self _config].
  intros [= H]. rewrite reduce_app, H. reflexivity.
Qed.

(** X6. [get] with the fallback [None] is [getn] of the one-key path: of
    the list holding the key, and of the key as a string when it does not
    contain the separator. *)
Theorem get_is_getn (st : state) (key : string) :
  get key None_ st = getn (KList [key]) "/" st /\
  (contains "/" key = false -> get key None_ st = getn (KStr key) "/" st).
Proof.
  assert (H : get key None_ st = getn (KList [key]) "/" st).
  { rewrite getn_eq. unfold get, bind, get_self, ret. simpl.
    destruct (dict_get (_config (self st)) key); reflexivity. }
  split; [exact H|].
  intros Hsep. rewrite H, !getn_eq. cbn [key_list].
  rewrite (split_without_sep _ _ Hsep). reflexivity.
Qed.

End NestedAccess.

Section Paths.
Import Py PosixPath configobj manager props more.
Context {pkg : Package}.

Lemma rstrip_empty (c : ascii) (s : string) :
  rstrip c s = "" -> s = replicate c (String.length s).
Proof.
  induction s as [|d s IH]; [reflexivity|].
  simpl. destruct (rstrip c s) eqn:E; [|discriminate].
  destruct (Ascii.eqb_spec d c) as [->|]; [|discriminate].
  intros _. rewrite <- IH by reflexivity. reflexivity.
Qed.

Lemma rstrip_isabs (s : string) :
  isabs s = true -> rstrip sep s = "" \/ isabs (rstrip sep s) = true.
Proof.
  intros H. destruct (isabs_inv s H) as [rest ->].
  simpl. destruct (rstrip sep rest); [left|right]; reflexivity.
Qed.

(** The directory of an absolute path is absolute. *)
Lemma isabs_dirname (p : string) : isabs p = true -> isabs (dirname p) = true.
Proof.
  intros H. destruct (isabs_inv p H) as [rest ->].
  unfold dirname. cbn [upto_last_sep contains]. rewrite Ascii.eqb_refl.
  cbn [orb].
  set (head := String "/" (upto_last_sep rest)).
  destruct (String.eqb_spec head (replicate sep (String.length head)))
    as [_|Hne]; [reflexivity|].
  destruct (rstrip_isabs head eq_refl) as [E|E]; [|exact E].
  exfalso. apply Hne. apply rstrip_empty, E.
Qed.

Lemma get_path_eq (sys : System) (keys : keys_arg) (st : state) :
  get_path sys keys st
  = match reduce dict_get_unbound (key_list keys "/")
            (VSection (_config (self st))) with
    | Raise e => (Raise e, st)
    | Ok v =>
        match expanduser_value sys v with
        | Raise e => (Raise e, st)
        | Ok path =>
            if isabs path then (Ok path, st)
            else match userconfig (self st) with
                 | Some uc => (Ok (PosixPath.join (dirname uc) path), st)
                 | None =>
                     (Ok path,
                      {| self := self st;
                         logger := logger st ++ [cannot_convert path] |})
                 end
        end
    end.
Proof.
  unfold get_path. rewrite bind_getn.
  destruct (reduce _ _ _) as [v|e]; [|reflexivity].
  unfold bind at 1, lift at 1.
  destruct (expanduser_value sys v) as [path|e]; [|reflexivity].
  destruct (isabs path); [reflexivity|]. simpl.
  unfold bind, get_self. destruct (userconfig (self st)); reflexivity.
Qed.

(** X7. Once a user configuration has been read (the current directory
    being absolute, as [os.getcwd] gives it), [get_path] of any entry that
    holds a string returns an absolute path, logs nothing and changes
    nothing, in that state and in any later one that still has the recorded
    path: the entry itself, its home-directory marker expanded, if that is
    absolute, else the entry joined onto the directory of the file that
    was read. *)
Theorem get_path_absolute_after_userconfig (sys sys' : System) (filename : string)
  (st0 st1 st : state) (keys : keys_arg) (v : string) :
  read_userconfig sys filename st0 = (Ok tt, st1) ->
  isabs (getcwd (environ sys)) = true ->
  userconfig (self st) = userconfig (self st1) ->
  fst (getn keys "/" st) = Ok (VLeaf (LStr v)) ->
  exists path,
    get_path sys' keys st = (Ok path, st) /\
    isabs path = true /\
    path = (if isabs (expanduser (environ sys') v)
            then expanduser (environ sys') v
            else PosixPath.join (dirname (abspath (environ sys) filename))
                   (expanduser (environ sys') v)).
Proof.
  intros Hread Hcwd Hsame Hget.
  assert (Huc : userconfig (self st) = Some (abspath (environ sys) filename)).
  { rewrite Hsame. rewrite read_userconfig_eq in Hread.
    destruct (userconfig (self st0)); [discriminate|].
    destruct (open_read sys filename); [|discriminate].
    destruct (ConfigObj _) as [raw|[]]; try discriminate.
    destruct (_validate _ raw); [|discriminate].
    injection Hread as <-. reflexivity. }
  apply getn_fst in Hget. rewrite get_path_eq, Hget, Huc. cbn [expanduser_value].
  destruct (isabs (expanduser (environ sys') v)) eqn:Habs.
  - eexists. split; [reflexivity|]. split; [exact Habs|reflexivity].
  - eexists. split; [reflexivity|]. split; [|reflexivity].
    pose proof (isabs_dirname _ (isabs_abspath (environ sys) filename Hcwd)) as Hdir.
    destruct (isabs_inv _ Hdir) as [rest Erest]. rewrite Erest.
    unfold PosixPath.join. fold (isabs (expanduser (environ sys') v)).
    rewrite Habs. destruct (endswith _ _); reflexivity.
Qed.

(** X8. [get_path] of an entry that does not hold a string (a key that is
    absent, so that [getn] gives [None], a number, a list, a section)
    raises [TypeError]; what [getn] raises, [get_path] raises; in both
    cases nothing is logged and the manager is unchanged. *)
Theorem get_path_not_a_string (sys : System) (st : state) (keys : keys_arg) :
  (forall v,
     fst (getn keys "/" st) = Ok v ->
     (forall s, v <> VLeaf (LStr s)) ->
     get_path sys keys st = (Raise TypeError, st)) /\
  (forall e,
     fst (getn keys "/" st) = Raise e ->
     get_path sys keys st = (Raise e, st)).
Proof.
  split.
  - intros v Hget Hv. apply getn_fst in Hget. rewrite get_path_eq, Hget.
    destruct v as [[| | |s|]|]; try reflexivity.
    exfalso. apply (Hv s). reflexivity.
  - intros e Hget. apply getn_fst in Hget. rewrite get_path_eq, Hget.
    reflexivity.
Qed.

(** X9. With [HOME] set to an absolute path, [get_path] of an entry that
    is "~" or starts with "~/" returns the rest of the entry under the home
    directory (trailing slashes of [HOME] dropped): an absolute path, with no
    warning and no need of a user configuration. *)
Theorem get_path_home (sys : System) (st : state) (keys : keys_arg)
  (home rest : string) :
  environ_HOME (environ sys) = Some home ->
  isabs home = true ->
  rest = "" \/ isabs rest = true ->
  fst (getn keys "/" st) = Ok (VLeaf (LStr (String "~" rest))) ->
  get_path sys keys st = (Ok (str_or (rstrip sep home ++ rest) "/"), st) /\
  isabs (str_or (rstrip sep home ++ rest) "/") = true.
Proof.
  intros Hhome Habs Hrest Hget.
  assert (Hbreak : break_at_sep rest = ("", rest)).
  { destruct Hrest as [->|Hr]; [reflexivity|].
    destruct (isabs_inv _ Hr) as [r ->]. reflexivity. }
  assert (Hres : isabs (str_or (rstrip sep home ++ rest) "/") = true).
  { destruct (rstrip_isabs home Habs) as [E|E].
    - rewrite E. simpl. destruct Hrest as [->|Hr]; [reflexivity|].
      destruct (isabs_inv _ Hr) as [r ->]. reflexivity.
    - destruct (isabs_inv _ E) as [r Er]. rewrite Er. reflexivity. }
  split; [|exact Hres].
  apply getn_fst in Hget. rewrite get_path_eq, Hget.
  cbn [expanduser_value expanduser]. rewrite Hbreak, Hhome, Hres.
  reflexivity.
Qed.

End Paths.

Section Loading.
Import Py PosixPath configobj manager props more.
Context {pkg : Package}.
Local Open Scope list_scope.

Lemma read_config_outcome (config : infile) (st st' : state) (r : result unit) :
  read_config config st = (r, st') ->
  userconfig (self st') = userconfig (self st) /\
  _configspec (self st') = _configspec (self st) /\
  ((r = Ok tt /\ logger st' = logger st ++ [loaded_config config]) \/
   ((exists e, r = Raise e) /\ st' = st)).
Proof.
  rewrite read_config_eq.
  destruct (ConfigObj config) as [raw|e].
  - destruct (_validate _ raw) as [newconfig|e].
    + intros [= <- <-]. repeat split. left. split; reflexivity.
    + intros [= <- <-]. repeat split. right. split; [eexists|]; reflexivity.
  - destruct e; intros [= <- <-]; repeat split; right;
      (split; [eexists|]; reflexivity).
Qed.

(** X10. A call of [read_config] never touches the recorded user-config
    path nor the specification; when it returns, exactly one record, naming
    the config, has been added to the log, and when it raises the whole
    state is as before. *)
Theorem read_config_frame (config : infile) (st st' : state) (r : result unit) :
  read_config config st = (r, st') ->
  userconfig (self st') = userconfig (self st) /\
  _configspec (self st') = _configspec (self st) /\
  ((r = Ok tt /\ logger st' = logger st ++ [loaded_config config]) \/
   ((exists e, r = Raise e) /\ st' = st)).
Proof.
  rewrite read_config_eq. intros H.
  destruct (ConfigObj config) as [raw|e].
  - destruct (_validate _ raw) as [newconfig|e]; injection H as <- <-.
    + repeat split. left. split; reflexivity.
    + repeat split. right. split; [exists e|]; reflexivity.
  - assert (Hst : st' = st /\ exists e', r = Raise e')
      by (destruct e; injection H as <- <-; split; eauto).
    destruct Hst as [-> He]. repeat split. right. split; [exact He|reflexivity].
Qed.

(** X11. No [ConfigObjError] of the package reaches the caller of
    [read_config] or [read_userconfig] as such.  One raised by the parser is
    raised again as a [ConfigError] with its message.  One raised by
    [config.validate] makes the handler of [_validate] evaluate [e.message]:
    the call ends in [AttributeError], the state unchanged. *)
Theorem no_ConfigObjError_escapes (sys : System) (config : infile)
  (filename : string) (st : state) (msg : string) :
  fst (read_config config st) <> Raise (ConfigObjError msg) /\
  fst (read_userconfig sys filename st) <> Raise (ConfigObjError msg) /\
  (ConfigObj config = Raise (ConfigObjError msg) ->
   read_config config st = (Raise (ConfigError msg), st)) /\
  (forall raw,
     ConfigObj config = Ok raw ->
     validate (_configspec (self st)) raw = Raise (ConfigObjError msg) ->
     _validate (_configspec (self st)) raw = Raise Py.AttributeError /\
     read_config config st = (Raise Py.AttributeError, st)).
Proof.
  assert (Hv : forall spec raw, _validate spec raw <> Raise (ConfigObjError msg)).
  { intros spec raw. unfold _validate.
    destruct (validate spec raw) as [[c []]|[]]; discriminate. }
  split; [|split; [|split]].
  - rewrite read_config_eq.
    destruct (ConfigObj config) as [raw|[]]; try discriminate.
    destruct (_validate _ raw) eqn:E; [discriminate|].
    simpl. intros [= ->]. apply (Hv _ _ E).
  - rewrite read_userconfig_eq.
    destruct (userconfig (self st)); [discriminate|].
    destruct (open_read sys filename); [|discriminate].
    destruct (ConfigObj _) as [raw|[]]; try discriminate.
    destruct (_validate _ raw) eqn:E; [discriminate|].
    simpl. intros [= ->]. apply (Hv _ _ E).
  - intros E. rewrite read_config_eq, E. reflexivity.
  - intros raw Hraw E. rewrite read_config_eq, Hraw.
    unfold _validate. rewrite E. split; reflexivity.
Qed.

(** X12. On a manager without a recorded path, [read_userconfig] of a
    readable file does to the merged config what [read_config] of the
    lines of the file does, and returns or raises the same; when it
    returns, it has in addition recorded the absolute path and logged one
    more record. *)
Theorem read_userconfig_as_read_config (sys : System) (filename content : string)
  (st : state) :
  userconfig (self st) = None ->
  open_read sys filename = Some content ->
  let lines := Lines (split newline content) in
  let by_config := read_config lines st in
  let by_user := read_userconfig sys filename st in
  fst by_user = fst by_config /\
  _config (self (snd by_user)) = _config (self (snd by_config)) /\
  (fst by_config = Ok tt ->
   userconfig (self (snd by_user)) = Some (abspath (environ sys) filename) /\
   logger (snd by_user)
   = logger (snd by_config)
     ++ [{| level := INFO; msg := "Loaded user config: {0}";
            args := [Filename filename] |}]).
Proof.
  intros Hunset Hopen lines by_config by_user.
  unfold by_config, by_user, lines.
  rewrite read_userconfig_eq, read_config_eq, Hunset, Hopen.
  destruct (ConfigObj _) as [raw|[]]; try (repeat split; discriminate).
  destruct (_validate _ raw); repeat split; discriminate.
Qed.

Lemma read_configs_eq (configs : list infile) :
  forall st : state,
    (exists st',
       read_configs configs st = (Ok tt, st') /\
       userconfig (self st') = userconfig (self st) /\
       _configspec (self st') = _configspec (self st) /\
       logger st' = logger st ++ map loaded_config configs /\
       forall c, In c configs -> ~ load_fails (_configspec (self st)) c) \/
    (exists e st', read_configs configs st = (Raise e, st')).
Proof.
  induction configs as [|config configs IH]; intros st.
  - left. exists st. simpl. rewrite app_nil_r. repeat split. intros c [].
  - cbn [read_configs]. unfold bind.
    destruct (read_config config st) as [[[]|e] st1] eqn:E;
      [|right; eexists; eexists; reflexivity].
    destruct (read_config_outcome _ _ _ _ E) as (Hu & Hs & [[_ Hl]|[[e He] _]]);
      [|discriminate].
    destruct (IH st1) as [(st' & Hrc & Hu' & Hs' & Hl' & Hok)|(e & st' & Hrc)];
      [|right; eexists; eexists; exact Hrc].
    left. exists st'. split; [exact Hrc|].
    split; [congruence|]. split; [congruence|]. split.
    + rewrite Hl', Hl, <- app_assoc. reflexivity.
    + intros c [<-|Hin] Hfail.
      * destruct (read_config_fails _ _ Hfail) as [msg Hmsg]. congruence.
      * apply (Hok c Hin). rewrite Hs. exact Hfail.
Qed.

(** X13. A manager that [__init__] has built has no recorded user-config
    path, whatever configs were given to the constructor; it holds the
    specification it was given, and the log has grown by one record for the
    defaults followed by one per config, in the order given. *)
Theorem init_state (configs_spec : list string) (spec : configspec)
  (configs : list infile) (log0 : list LogRecord) (st : state) :
  __init__ configs_spec spec configs log0 = Ok st ->
  userconfig (self st) = None /\
  _configspec (self st) = spec /\
  logger st = log0 ++ loaded_defaults configs_spec :: map loaded_config configs.
Proof.
  unfold __init__. destruct (_validate spec []) as [config|]; [|discriminate].
  unfold bind at 1, log at 1.
  match goal with
  | |- match read_configs configs ?st0 with _ => _ end = _ -> _ =>
      destruct (read_configs_eq configs st0)
        as [(st' & Hrc & Hu & Hs & Hl & _)|(e & st' & Hrc)];
      rewrite Hrc; [|discriminate]
  end.
  intros [= <-]. split; [exact Hu|]. split; [exact Hs|].
  rewrite Hl. cbn [logger]. rewrite <- app_assoc. reflexivity.
Qed.

Lemma read_configs_app (configs : list infile) (config : infile) :
  forall st : state,
    read_configs (configs ++ [config]) st
    = match read_configs configs st with
      | (Ok _, st') => read_config config st'
      | (Raise e, st') => (Raise e, st')
      end.
Proof.
  induction configs as [|c configs IH]; intros st.
  - cbn [app read_configs]. unfold bind, ret.
    destruct (read_config config st) as [[[]|e] st']; reflexivity.
  - cbn [app read_configs]. unfold bind.
    destruct (read_config c st) as [[[]|e] st1]; [apply IH|reflexivity].
Qed.

(** X14. Giving the constructor one more config is building the manager
    without it and then calling [read_config] on it: the configs are merged
    in the order given, and the first failure aborts the construction. *)
Theorem init_one_more_config (configs_spec : list string) (spec : configspec)
  (configs : list infile) (config : infile) (log0 : list LogRecord) :
  __init__ configs_spec spec (configs ++ [config]) log0
  = match __init__ configs_spec spec configs log0 with
    | Ok st =>
        match read_config config st with
        | (Ok _, st') => Ok st'
        | (Raise e, _) => Raise e
        end
    | Raise e => Raise e
    end.
Proof.
  unfold __init__. destruct (_validate spec []) as [d|]; [|reflexivity].
  unfold bind, log. rewrite read_configs_app.
  destruct (read_configs configs _) as [[[]|e] st']; reflexivity.
Qed.

(** X15. The constructor builds no manager unless the empty config
    validates and every given config parses and validates: if validation
    of the defaults fails it raises [ConfigError], and if some given config
    fails it raises. *)
Theorem init_fails (configs_spec : list string) (spec : configspec)
  (configs : list infile) (log0 : list LogRecord) :
  (validation_fails spec [] ->
   exists msg, __init__ configs_spec spec configs log0 = Raise (ConfigError msg)) /\
  (forall config,
     In config configs -> load_fails spec config ->
     exists e, __init__ configs_spec spec configs log0 = Raise e).
Proof.
  split.
  - intros Hv. destruct (_validate_fails _ _ Hv) as [msg Hmsg].
    exists msg. unfold __init__. rewrite Hmsg. reflexivity.
  - intros config Hin Hfail. unfold __init__.
    destruct (_validate spec []) as [d|e]; [|eexists; reflexivity].
    unfold bind at 1, log at 1.
    match goal with
    | |- exists e, match read_configs configs ?st0 with _ => _ end = _ =>
        destruct (read_configs_eq configs st0)
          as [(st' & _ & _ & _ & _ & Hok)|(e & st' & Hrc)]
    end.
    + exfalso. apply (Hok config Hin). exact Hfail.
    + rewrite Hrc. eexists. reflexivity.
Qed.

Lemma split_lines (ls : list string) :
  Forall (fun l => contains newline l = false) ls ->
  split newline (Py.join "" (map (fun l => (l ++ String newline "")%string) ls))
  = ls ++ [""%string].
Proof.
  induction 1 as [|l ls Hl _ IH]; [reflexivity|].
  cbn [map]. rewrite join_empty_cons, append_associative.
  cbn [append]. rewrite (split_app_sep _ _ _ Hl), IH. reflexivity.
Qed.

(** X16. The report of a failed validation can be taken apart again: when
    no line contains a newline itself, splitting the message of the
    [ConfigError] at the newlines gives the lines of the violations, one
    each and in their order, followed by one empty string. *)
Theorem report_splits_into_lines (spec : configspec) (raw config : dict)
  (errors : list violation) :
  validate spec raw = Ok (config, Flattened errors) ->
  Forall (fun v => contains newline (render v) = false) errors ->
  exists message,
    _validate spec raw = Raise (ConfigError message) /\
    split newline message = map render errors ++ [""%string].
Proof.
  intros Hv Hlines. exists (error_msg errors). split.
  - unfold _validate. rewrite Hv. reflexivity.
  - rewrite error_msg_lines. unfold line.
    rewrite <- (map_map render (fun l => (l ++ String newline "")%string)).
    apply split_lines. apply Forall_map. exact Hlines.
Qed.

End Loading.

Section FrequencyRange.
Import Py configobj manager props more.
Context {pkg : Package}.
Local Open Scope Z_scope.

(** X18. With a type other than "custom", [frequencies] raises
    [TypeError] when start, stop or step is not a number (an entry left
    unset gives [None]), even if another of them is 0, and when the config
    has no section "frequency"; the manager is unchanged. *)
Theorem frequencies_not_numbers (st : state) :
  (forall type vstart vstop vstep,
     fst (getn (KStr "frequency/type") "/" st) = Ok type ->
     eq_str type "custom" = false ->
     fst (getn (KStr "frequency/start") "/" st) = Ok vstart ->
     fst (getn (KStr "frequency/stop") "/" st) = Ok vstop ->
     fst (getn (KStr "frequency/step") "/" st) = Ok vstep ->
     as_number vstart = None \/ as_number vstop = None \/ as_number vstep = None ->
     frequencies st = (Raise TypeError, st)) /\
  ((forall d, dict_get (_config (self st)) "frequency" <> Some (VSection d)) ->
   frequencies st = (Raise TypeError, st)).
Proof.
  split.
  - intros type vstart vstop vstep Htype Hcalc Hstart Hstop Hstep Hnot.
    apply getn_fst in Htype, Hstart, Hstop, Hstep. cbn [key_list] in *.
    rewrite frequencies_eq. cbv beta zeta.
    rewrite Htype, Hcalc, Hstart, Hstop, Hstep.
    unfold sub, arith at 1.
    destruct (as_number vstop) as [b|]; [|reflexivity].
    destruct (as_number vstart) as [a|]; [|reflexivity].
    destruct Hnot as [H|[H|H]]; try discriminate.
    unfold truediv, arith. rewrite H. reflexivity.
  - intros Hnone. rewrite frequencies_eq. cbv beta zeta.
    cbn [split Ascii.eqb Bool.eqb reduce dict_get_unbound].
    destruct (dict_get (_config (self st)) "frequency") as [[x|d]|];
      try reflexivity.
    exfalso. apply (Hnone d). reflexivity.
Qed.

End FrequencyRange.

Section LoggingProperty.
Import Py configobj manager props logconf.
Context {pkg : Package}.

Lemma logging_eq (py : Interpreter) (st : state) :
  logging py st
  = let conf := match dict_get (_config (self st)) "logging" with
                | Some v => v
                | None => None_
                end in
    match getitem conf "stream" with
    | Raised r => (Raised r, [])
    | Return stream =>
    match (if truthy stream then
             match getattr (sys_hasattr py) stream with
             | Return s => Return [StreamHandler s]
             | Raised r => Raised r
             end
           else Return []) with
    | Raised r => (Raised r, [])
    | Return hs1 =>
    match getitem conf "filename" with
    | Raised r => (Raised r, hs1)
    | Return logfile =>
    match getitem conf "filemode" with
    | Raised r => (Raised r, hs1)
    | Return filemode =>
    match (if truthy logfile then
             match new_FileHandler py logfile filemode with
             | Return h => Return (hs1 ++ [h])%list
             | Raised r => Raised r
             end
           else Return hs1) with
    | Raised r => (Raised r, hs1)
    | Return hs2 =>
    match getitem conf "level" with
    | Raised r => (Raised r, hs2)
    | Return level_name =>
    match getattr (logging_hasattr py) level_name with
    | Raised r => (Raised r, hs2)
    | Return level =>
    match getitem conf "format" with
    | Raised r => (Raised r, hs2)
    | Return format =>
    match getitem conf "datefmt" with
    | Raised r => (Raised r, hs2)
    | Return datefmt =>
        (Return {| level := level; format := format; datefmt := datefmt;
                   filemode := filemode; handlers := hs2 |}, hs2)
    end end end end end end end end end.
Proof.
  unfold logging, get, bind, get_self, ret. cbn [fst self].
  cbv zeta.
  set (conf := match dict_get (_config (self st)) "logging" with
               | Some v => v
               | None => None_
               end).
  unfold bindL, liftL, append.
  destruct (getitem conf "stream") as [stream|r]; [|reflexivity].
  destruct (truthy stream).
  - destruct (getattr (sys_hasattr py) stream) as [s|r]; [|reflexivity].
    cbn [app].
    destruct (getitem conf "filename") as [logfile|r]; [|reflexivity].
    destruct (getitem conf "filemode") as [filemode|r]; [|reflexivity].
    destruct (truthy logfile).
    + destruct (new_FileHandler py logfile filemode) as [h|r]; [|reflexivity].
      destruct (getitem conf "level") as [level_name|r]; [|reflexivity].
      destruct (getattr (logging_hasattr py) level_name) as [l|r]; [|reflexivity].
      destruct (getitem conf "format") as [f|r]; [|reflexivity].
      destruct (getitem conf "datefmt") as [t|r]; reflexivity.
    + destruct (getitem conf "level") as [level_name|r]; [|reflexivity].
      destruct (getattr (logging_hasattr py) level_name) as [l|r]; [|reflexivity].
      destruct (getitem conf "format") as [f|r]; [|reflexivity].
      destruct (getitem conf "datefmt") as [t|r]; reflexivity.
  - destruct (getitem conf "filename") as [logfile|r]; [|reflexivity].
    destruct (getitem conf "filemode") as [filemode|r]; [|reflexivity].
    destruct (truthy logfile).
    + destruct (new_FileHandler py logfile filemode) as [h|r]; [|reflexivity].
      destruct (getitem conf "level") as [level_name|r]; [|reflexivity].
      destruct (getattr (logging_hasattr py) level_name) as [l|r]; [|reflexivity].
      destruct (getitem conf "format") as [f|r]; [|reflexivity].
      destruct (getitem conf "datefmt") as [t|r]; reflexivity.
    + destruct (getitem conf "level") as [level_name|r]; [|reflexivity].
      destruct (getattr (logging_hasattr py) level_name) as [l|r]; [|reflexivity].
      destruct (getitem conf "format") as [f|r]; [|reflexivity].
      destruct (getitem conf "datefmt") as [t|r]; reflexivity.
Qed.

(** X19. [logging] returns only if the merged config has a section
    "logging" holding the six keys it reads, with a level that names an
    attribute of the module [logging]; the result then carries the entries
    format, datefmt and filemode as they are, and at most two handlers: the
    stream handler, if the entry stream is true, before the file handler,
    if the entry filename is true. *)
Theorem logging_returns_only_with (py : Interpreter) (st : state) (lc : logconf)
  (hs : list handler) :
  logging py st = (Return lc, hs) ->
  exists d stream logfile,
    dict_get (_config (self st)) "logging" = Some (VSection d) /\
    dict_get d "stream" = Some stream /\
    dict_get d "filename" = Some logfile /\
    dict_get d "filemode" = Some (filemode lc) /\
    dict_get d "level" = Some (VLeaf (LStr (level lc))) /\
    logging_hasattr py (level lc) = true /\
    dict_get d "format" = Some (format lc) /\
    dict_get d "datefmt" = Some (datefmt lc) /\
    hs = handlers lc /\
    handlers lc
    = ((if truthy stream then
          match stream with
          | VLeaf (LStr s) => [StreamHandler s]
          | _ => []
          end
        else [])
       ++ (if truthy logfile then
             match logfile with
             | VLeaf (LStr f) => [FileHandler f (filemode lc)]
             | _ => []
             end
           else []))%list.
Proof.
  rewrite logging_eq. cbv zeta.
  destruct (dict_get (_config (self st)) "logging") as [[x|d]|] eqn:Hconf;
    try discriminate.
  cbn [getitem].
  destruct (dict_get d "stream") as [stream|] eqn:Hstream; [|discriminate].
  destruct (dict_get d "filename") as [logfile|] eqn:Hfile.
  2:{ destruct (truthy stream); [|discriminate].
      destruct (getattr (sys_hasattr py) stream); discriminate. }
  destruct (dict_get d "filemode") as [fm|] eqn:Hfm.
  2:{ destruct (truthy stream); [|discriminate].
      destruct (getattr (sys_hasattr py) stream); discriminate. }
  intros H. exists d, stream, logfile.
  assert (Hs : exists hs1,
             (if truthy stream then
                match getattr (sys_hasattr py) stream with
                | Return s => Return [StreamHandler s]
                | Raised r => Raised r
                end
              else Return []) = Return hs1 /\
             hs1 = (if truthy stream then
                      match stream with
                      | VLeaf (LStr s) => [StreamHandler s]
                      | _ => []
                      end
                    else [])).
  { destruct (truthy stream); [|eexists; split; reflexivity].
    destruct stream as [[| | |s|]|]; try discriminate.
    unfold getattr in *. destruct (sys_hasattr py s); [|discriminate].
    eexists. split; reflexivity. }
  destruct Hs as [hs1 [E1 Hhs1]]. rewrite E1 in H.
  assert (Hf : exists hs2,
             (if truthy logfile then
                match new_FileHandler py logfile fm with
                | Return h => Return (hs1 ++ [h])%list
                | Raised r => Raised r
                end
              else Return hs1) = Return hs2 /\
             hs2 = (hs1 ++ (if truthy logfile then
                              match logfile with
                              | VLeaf (LStr f) => [FileHandler f fm]
                              | _ => []
                              end
                            else []))%list).
  { destruct (truthy logfile);
      [|eexists; split; [reflexivity|symmetry; apply app_nil_r]].
    destruct logfile as [[| | |f|]|]; try discriminate.
    unfold new_FileHandler in *. destruct (open_logfile py f fm); [discriminate|].
    eexists. split; reflexivity. }
  destruct Hf as [hs2 [E2 Hhs2]]. rewrite E2 in H.
  destruct (dict_get d "level") as [[[| | |l|]|]|] eqn:Hlevel; try discriminate.
  unfold getattr in H. destruct (logging_hasattr py l) eqn:Hl; [|discriminate].
  destruct (dict_get d "format") as [f|] eqn:Hformat; [|discriminate].
  destruct (dict_get d "datefmt") as [t|] eqn:Hdatefmt; [|discriminate].
  injection H as <- <-. cbn [level format datefmt filemode handlers].
  subst hs2 hs1. repeat split; first [assumption|reflexivity].
Qed.

(** X20. When the entries stream and filename of the section "logging"
    are both false (empty, [None]), and the level names an attribute of the
    module [logging], [logging] returns without constructing any handler:
    no log file is opened, whatever the interpreter would do with it. *)
Theorem logging_without_handlers (py : Interpreter) (st : state) (d : dict)
  (stream logfile fm f t : value) (l : string) :
  dict_get (_config (self st)) "logging" = Some (VSection d) ->
  dict_get d "stream" = Some stream -> truthy stream = false ->
  dict_get d "filename" = Some logfile -> truthy logfile = false ->
  dict_get d "filemode" = Some fm ->
  dict_get d "level" = Some (VLeaf (LStr l)) -> logging_hasattr py l = true ->
  dict_get d "format" = Some f ->
  dict_get d "datefmt" = Some t ->
  logging py st
  = (Return {| level := l; format := f; datefmt := t; filemode := fm;
               handlers := [] |}, []).
Proof.
  intros Hconf Hstream Hts Hfile Htf Hfm Hlevel Hl Hf Ht.
  rewrite logging_eq, Hconf. cbv zeta. cbn [getitem].
  rewrite Hstream, Hts, Hfile, Hfm, Htf, Hlevel. cbn [getattr].
  rewrite Hl, Hf, Ht. reflexivity.
Qed.

(** X21. The handlers are constructed before the level is looked up.
    When the entry stream is false or names an attribute of [sys], the entry
    filename holds a file name that [FileHandler] opens, and the level is
    then missing, not a string or not an attribute of the module [logging],
    [logging] raises with the handlers already constructed: the stream
    handler if there is one, then the file handler (the log file opened). *)
Theorem logging_opens_file_before_level (py : Interpreter) (st : state)
  (d : dict) (stream fm : value) (logfile : string) (r : raised)
  (hs1 : list handler) :
  dict_get (_config (self st)) "logging" = Some (VSection d) ->
  dict_get d "stream" = Some stream ->
  (truthy stream = false /\ hs1 = []) \/
  (exists s, stream = VLeaf (LStr s) /\ s <> "" /\ sys_hasattr py s = true /\
             hs1 = [StreamHandler s]) ->
  dict_get d "filename" = Some (VLeaf (LStr logfile)) -> logfile <> "" ->
  dict_get d "filemode" = Some fm ->
  open_logfile py logfile fm = None ->
  match getitem (VSection d) "level" with
  | Return level_name => getattr (logging_hasattr py) level_name = Raised r
  | Raised r' => r' = r
  end ->
  logging py st = (Raised r, (hs1 ++ [FileHandler logfile fm])%list).
Proof.
  intros Hconf Hstream Hts Hfile Hne Hfm Hopen Hlevel.
  rewrite logging_eq, Hconf. cbv zeta.
  assert (E1 : (if truthy stream then
                  match getattr (sys_hasattr py) stream with
                  | Return s => Return [StreamHandler s]
                  | Raised r => Raised r
                  end
                else Return []) = Return hs1).
  { destruct Hts as [[-> ->]|(s & -> & Hs & Hattr & ->)]; [reflexivity|].
    cbn [truthy getattr]. destruct (String.eqb_spec s ""); [contradiction|].
    cbn [negb]. rewrite Hattr. reflexivity. }
  cbn [getitem] in *. rewrite Hstream, E1, Hfile, Hfm.
  cbn [truthy new_FileHandler].
  destruct (String.eqb_spec logfile ""); [contradiction|]. cbn [negb].
  rewrite Hopen.
  destruct (dict_get d "level") as [level_name|].
  - rewrite Hlevel. reflexivity.
  - subst r. reflexivity.
Qed.

End LoggingProperty.

(** ** The further properties at work on the small installation *)

Section MoreWitnesses.
Import Py PosixPath configobj manager engine props more examples more_examples.

Lemma getn_existing_path_witness :
  getn (KStr "frequency/stop") "/" (manager_ex calc_1_10_3 None)
  = (Ok (num 10 1), manager_ex calc_1_10_3 None).
Proof.
  apply (getn_existing_path (manager_ex calc_1_10_3 None)). reflexivity.
Defined.

Lemma getn_absent_last_key_witness :
  getn (KList ["frequency"; "unit"]) "/" (manager_ex calc_1_10_3 None)
  = (Ok None_, manager_ex calc_1_10_3 None).
Proof.
  apply (getn_absent_last_key (manager_ex calc_1_10_3 None) "/" ["frequency"] "unit"
           [("type", VLeaf (LStr "calc")); ("frequencies", VLeaf (LList []));
            ("start", num 1 1); ("stop", num 10 1); ("step", num 3 1)]);
    reflexivity.
Defined.

Lemma getn_through_section_witness :
  fst (getn (KList ["input"; "template"]) "/" (manager_ex calc_1_10_3 None))
  = fst (getn (KList ["template"]) "/"
           (with_config (manager_ex calc_1_10_3 None)
              [("template", VLeaf (LStr "data/in.txt"))])).
Proof.
  apply (getn_through_section (manager_ex calc_1_10_3 None) "/"
           ["input"] ["template"]).
  reflexivity.
Defined.

Lemma get_is_getn_witness :
  get "input" None_ (manager_ex calc_1_10_3 None)
  = getn (KStr "input") "/" (manager_ex calc_1_10_3 None).
Proof.
  apply (get_is_getn (manager_ex calc_1_10_3 None) "input"). reflexivity.
Defined.

Lemma get_path_absolute_after_userconfig_witness :
  let st1 := snd (read_userconfig sys_ex "user.conf" (manager_ex calc_1_10_3 None)) in
  get_path sys_ex (KStr "input/template") st1 = (Ok "/work/data/in.txt", st1).
Proof.
  intros st1.
  destruct (get_path_absolute_after_userconfig sys_ex sys_ex "user.conf"
              (manager_ex calc_1_10_3 None) st1 st1 (KStr "input/template")
              "data/in.txt" eq_refl eq_refl eq_refl eq_refl)
    as (path & Hpath & _ & ->).
  exact Hpath.
Defined.

Lemma get_path_not_a_string_witness :
  get_path sys_ex (KStr "frequency/start") (manager_ex calc_1_10_3 None)
  = (Raise TypeError, manager_ex calc_1_10_3 None) /\
  get_path sys_ex (KStr "input/missing") (manager_ex calc_1_10_3 None)
  = (Raise TypeError, manager_ex calc_1_10_3 None) /\
  get_path sys_ex (KStr "output/filename") (manager_ex calc_1_10_3 None)
  = (Raise TypeError, manager_ex calc_1_10_3 None).
Proof.
  destruct (get_path_not_a_string sys_ex (manager_ex calc_1_10_3 None)
              (KStr "frequency/start")) as [H1 _].
  destruct (get_path_not_a_string sys_ex (manager_ex calc_1_10_3 None)
              (KStr "input/missing")) as [H2 _].
  destruct (get_path_not_a_string sys_ex (manager_ex calc_1_10_3 None)
              (KStr "output/filename")) as [_ H3].
  split; [|split].
  - apply (H1 (num 1 1)); [reflexivity|discriminate].
  - apply (H2 None_); [reflexivity|discriminate].
  - apply (H3 TypeError). reflexivity.
Defined.

Lemma get_path_home_witness :
  get_path sys_ex (KStr "input/template") (manager_ex under_home None)
  = (Ok "/home/u/maps/sky.fits", manager_ex under_home None).
Proof.
  apply (get_path_home sys_ex (manager_ex under_home None) (KStr "input/template")
           "/home/u" "/maps/sky.fits"); try reflexivity.
  right. reflexivity.
Defined.

Lemma read_config_frame_witness :
  let st := manager_ex calc_1_10_3 (Some "/work/user.conf") in
  let st' := snd (read_config (Lines ["# nothing"]) st) in
  userconfig (self st') = Some "/work/user.conf" /\
  logger st' = [loaded_config (Lines ["# nothing"])] /\
  snd (read_config (Lines ["["]) st) = st.
Proof.
  intros st st'.
  destruct (read_config_frame (Lines ["# nothing"]) st st' (Ok tt) eq_refl)
    as (Hu & _ & [[_ Hl]|[[e He] _]]); [|discriminate].
  destruct (read_config_frame (Lines ["["]) st (snd (read_config (Lines ["["]) st))
              (fst (read_config (Lines ["["]) st)) eq_refl)
    as (_ & _ & [[Hr _]|[_ Hst]]); [discriminate|].
  split; [exact Hu|]. split; [exact Hl|exact Hst].
Defined.

Lemma no_ConfigObjError_escapes_witness :
  let st := manager_ex calc_1_10_3 None in
  let invalid :=
    "Invalid line ('[') (matched as neither section nor keyword) at line 1." in
  let raising : @state pkg_raising :=
    {| self := @Build_ConfigManager pkg_raising tt [] None; logger := [] |} in
  fst (read_config (Lines ["["]) st) <> Raise (ConfigObjError invalid) /\
  fst (read_userconfig sys_ex "broken.conf" st) <> Raise (ConfigObjError invalid) /\
  read_config (Lines ["["]) st = (Raise (ConfigError invalid), st) /\
  read_config (Lines ["# nothing"]) raising = (Raise Py.AttributeError, raising).
Proof.
  intros st invalid raising.
  destruct (no_ConfigObjError_escapes sys_ex (Lines ["["]) "broken.conf" st invalid)
    as (H1 & H2 & H3 & _).
  destruct (no_ConfigObjError_escapes (pkg := pkg_raising) sys_ex
              (Lines ["# nothing"]) "user.conf" raising "cannot validate")
    as (_ & _ & _ & H4).
  split; [exact H1|]. split; [exact H2|]. split; [exact (H3 eq_refl)|].
  exact (proj2 (H4 [] eq_refl eq_refl)).
Defined.

Lemma read_userconfig_as_read_config_witness :
  let st := manager_ex calc_1_10_3 None in
  let lines := Lines ["[frequency]"; "type = calc"] in
  fst (read_userconfig sys_ex "user.conf" st) = fst (read_config lines st) /\
  _config (self (snd (read_userconfig sys_ex "user.conf" st)))
  = _config (self (snd (read_config lines st))) /\
  userconfig (self (snd (read_userconfig sys_ex "user.conf" st)))
  = Some "/work/user.conf".
Proof.
  intros st lines.
  destruct (read_userconfig_as_read_config sys_ex "user.conf"
              ("[frequency]" ++ String newline "type = calc") st eq_refl eq_refl)
    as (Hr & Hc & Hu).
  split; [exact Hr|]. split; [exact Hc|].
  apply (Hu eq_refl).
Defined.

Lemma init_state_witness :
  userconfig (self init_two) = None /\
  logger init_two
  = loaded_defaults ["00-general.conf.spec"] :: map loaded_config two_configs.
Proof.
  destruct (init_state (pkg := pkg_ex) ["00-general.conf.spec"] spec_ex two_configs
              [] init_two eq_refl) as (Hu & _ & Hl).
  split; [exact Hu|exact Hl].
Defined.

Lemma init_fails_witness :
  (exists msg,
     __init__ (pkg := pkg_ex) ["strict.conf.spec"] spec_strict [] []
     = Raise (ConfigError msg)) /\
  (exists e,
     __init__ (pkg := pkg_ex) ["00-general.conf.spec"] spec_ex
       [Lines ["# nothing"]; Lines ["["]] [] = Raise e).
Proof.
  destruct (init_fails (pkg := pkg_ex) ["strict.conf.spec"] spec_strict [] [])
    as [H1 _].
  destruct (init_fails (pkg := pkg_ex) ["00-general.conf.spec"] spec_ex
              [Lines ["# nothing"]; Lines ["["]] []) as [_ H2].
  split.
  - apply H1. eexists. eexists. vm_compute. reflexivity.
  - apply (H2 (Lines ["["])); [simpl; auto|].
    left. eexists. reflexivity.
Defined.

Lemma report_splits_into_lines_witness :
  exists message,
    _validate (pkg := pkg_ex) spec_strict [] = Raise (ConfigError message) /\
    length (split newline message) = 5%nat.
Proof.
  destruct (report_splits_into_lines (pkg := pkg_ex) spec_strict []
              (resolve spec_strict []) (violations spec_strict [] []))
    as (message & Hraise & Hsplit).
  - reflexivity.
  - repeat constructor.
  - exists message. split; [exact Hraise|]. rewrite Hsplit. reflexivity.
Defined.

Lemma frequencies_not_numbers_witness :
  frequencies (manager_ex calc_unset None)
  = (Raise TypeError, manager_ex calc_unset None) /\
  frequencies (manager_ex under_home None)
  = (Raise TypeError, manager_ex under_home None).
Proof.
  destruct (frequencies_not_numbers (manager_ex calc_unset None)) as [H1 _].
  destruct (frequencies_not_numbers (manager_ex under_home None)) as [_ H2].
  split.
  - apply (H1 (VLeaf (LStr "calc")) (VLeaf LNone) (num 10 1) (num 0 1));
      try reflexivity.
    left. reflexivity.
  - apply H2. intros d. discriminate.
Defined.

End MoreWitnesses.

Section LoggingWitnesses.
Import Py configobj props examples more_examples logconf.

Lemma logging_returns_only_with_witness :
  let st := manager_ex (logging_section "stderr" "run.log" "INFO") None in
  exists lc,
    logging py_ex st = (Return lc, handlers lc) /\
    handlers lc = [StreamHandler "stderr"; FileHandler "run.log" (VLeaf (LStr "a"))].
Proof.
  intros st.
  destruct (logging py_ex st) as [[lc|r] hs] eqn:E; [|discriminate].
  destruct (logging_returns_only_with py_ex st lc hs E)
    as (d & stream & logfile & Hconf & Hs & Hf & Hfm & _ & _ & _ & _ & Hhs & Hh).
  injection Hconf as <-. injection Hs as <-. injection Hf as <-.
  simpl in Hfm. injection Hfm as Hfm. rewrite <- Hfm in Hh.
  exists lc. subst hs. split; [reflexivity|exact Hh].
Defined.

Lemma logging_without_handlers_witness :
  let st := manager_ex (logging_section "" "" "INFO") None in
  snd (logging py_ex st) = [] /\
  exists lc, fst (logging py_ex st) = Return lc /\ handlers lc = [].
Proof.
  intros st.
  rewrite (logging_without_handlers py_ex st
             [("level", VLeaf (LStr "INFO"));
              ("format", VLeaf (LStr "%(levelname)s: %(message)s"));
              ("datefmt", VLeaf (LStr "%H:%M:%S"));
              ("stream", VLeaf (LStr ""));
              ("filename", VLeaf (LStr ""));
              ("filemode", VLeaf (LStr "a"))]
             (VLeaf (LStr "")) (VLeaf (LStr "")) (VLeaf (LStr "a"))
             (VLeaf (LStr "%(levelname)s: %(message)s"))
             (VLeaf (LStr "%H:%M:%S")) "INFO"); try reflexivity.
  split; [reflexivity|]. eexists. split; reflexivity.
Defined.

Lemma logging_opens_file_before_level_witness :
  let st := manager_ex (logging_section "" "run.log" "LOUD") None in
  let st' := manager_ex (logging_section "stderr" "run.log" "LOUD") None in
  logging py_ex st
  = (Raised (AttributeError "LOUD"), [FileHandler "run.log" (VLeaf (LStr "a"))]) /\
  logging py_ex st'
  = (Raised (AttributeError "LOUD"),
     [StreamHandler "stderr"; FileHandler "run.log" (VLeaf (LStr "a"))]).
Proof.
  intros st st'. split.
  - apply (logging_opens_file_before_level py_ex st
             [("level", VLeaf (LStr "LOUD"));
              ("format", VLeaf (LStr "%(levelname)s: %(message)s"));
              ("datefmt", VLeaf (LStr "%H:%M:%S"));
              ("stream", VLeaf (LStr ""));
              ("filename", VLeaf (LStr "run.log"));
              ("filemode", VLeaf (LStr "a"))]
             (VLeaf (LStr "")) (VLeaf (LStr "a")) "run.log"
             (AttributeError "LOUD") []); try reflexivity.
    + left. split; reflexivity.
    + discriminate.
  - apply (logging_opens_file_before_level py_ex st'
             [("level", VLeaf (LStr "LOUD"));
              ("format", VLeaf (LStr "%(levelname)s: %(message)s"));
              ("datefmt", VLeaf (LStr "%H:%M:%S"));
              ("stream", VLeaf (LStr "stderr"));
              ("filename", VLeaf (LStr "run.log"));
              ("filemode", VLeaf (LStr "a"))]
             (VLeaf (LStr "stderr")) (VLeaf (LStr "a")) "run.log"
             (AttributeError "LOUD") [StreamHandler "stderr"]); try reflexivity.
    + right. exists "stderr". repeat split. discriminate.
    + discriminate.
Defined.

End LoggingWitnesses.
